(** * Name-realism prediction endpoint: a shallow embedding of
      [new-app-with-retry.py] and the properties of its request pipeline.

    The development follows the source top-down:
    - Python strings and the two whitespace primitives the handler uses
      ([str.strip] and [re.sub(r'\s+', ' ', _)]);
    - the regular expression of [extract_json_from_response], as a
      backtracking matcher;
    - the Python values that [json.loads] and [request.get_json] produce;
    - the [predict] handler, with its retry loop, as a function from the
      request and the behaviour of the completion API to the list of
      observable effects (API calls, sleeps) and the HTTP response, or the
      exception that leaves the handler.

    Calls to [logger] have no influence on control flow or on the response
    and are not part of the model. *)

From Stdlib Require Import NArith ZArith String Ascii List Bool Lia.
From Stdlib Require Import DecimalString.
From Stdlib Require Import Floats.SpecFloat.
From stdpp Require Import base option list gmap.
Import ListNotations.

Set Default Proof Using "Type".

(** ** Python strings *)

(** A Python [str] is a sequence of Unicode code points. *)
Abbreviation str := (list N).

(** An ASCII literal of the source, as a [str]. *)
Definition lit (s : string) : str := map N_of_ascii (list_ascii_of_string s).
Arguments lit : simpl never.

(** The double quote, which the literals of this file never contain. *)
Definition dq : N := 34%N.
Definition quoted (s : str) : str := dq :: s ++ [dq].

Definition str_eqb (a b : str) : bool := bool_decide (a = b).

Module Ws.

(** [str.isspace] on one code point (CPython's [Py_UNICODE_ISSPACE]); the
    same predicate decides [\s] in a [str] pattern of the [re] module. *)
Definition isspace (c : N) : bool :=
  ((9 <=? c) && (c <=? 13) || (28 <=? c) && (c <=? 32)
   || (c =? 133) || (c =? 160) || (c =? 5760)
   || (8192 <=? c) && (c <=? 8202)
   || (c =? 8232) || (c =? 8233) || (c =? 8239) || (c =? 8287)
   || (c =? 12288))%N.

(** [text.lstrip()], [text.rstrip()] and [text.strip()]. *)
Fixpoint lstrip (s : str) : str :=
  match s with
  | [] => []
  | c :: s' => if isspace c then lstrip s' else s
  end.

Fixpoint rstrip (s : str) : str :=
  match s with
  | [] => []
  | c :: s' =>
      match rstrip s' with
      | [] => if isspace c then [] else [c]
      | r => c :: r
      end
  end.

Definition strip (s : str) : str := rstrip (lstrip s).

(** [re.sub(r'\s+', ' ', s)]: the matches of [\s+] are the maximal runs of
    whitespace, taken left to right; each is replaced by one space.
    [in_run] says that the previous code point belonged to the run being
    replaced. *)
Fixpoint sub_ws_from (in_run : bool) (s : str) : str :=
  match s with
  | [] => []
  | c :: s' =>
      if isspace c
      then if in_run then sub_ws_from true s' else 32%N :: sub_ws_from true s'
      else c :: sub_ws_from false s'
  end.

Definition re_sub_ws (s : str) : str := sub_ws_from false s.

(** Lines 45-46 of the handler, for a [name] that is a [str]:
    [name = name.strip(); name = re.sub(r'\s+', ' ', name).strip()]. *)
Definition normalize_name (s : str) : str := strip (re_sub_ws (strip s)).

(** *** The specification's wording of a normalized name

    "Leading/trailing whitespace removed and internal runs of whitespace
    collapsed to a single space": the maximal whitespace-free words of the
    input, in order, separated by exactly one space. *)
Fixpoint fields (s : str) : list str :=
  match s with
  | [] => [[]]
  | c :: s' =>
      if isspace c then [] :: fields s'
      else match fields s' with
           | w :: ws => (c :: w) :: ws
           | [] => [[c]]
           end
  end.

Definition nonempty (w : str) : bool :=
  match w with [] => false | _ => true end.

Definition words (s : str) : list str := List.filter nonempty (fields s).

Fixpoint join (sep : str) (l : list str) : str :=
  match l with
  | [] => []
  | [w] => w
  | w :: l' => w ++ sep ++ join sep l'
  end.

Definition spec_normalized (s : str) : str := join [32%N] (words s).

Definition ws_free (w : str) : Prop := Forall (fun c => isspace c = false) w.

End Ws.

Import Ws.


(** ** The regular expression of [extract_json_from_response]

    [re.search(r"```json\s*({.*?})\s*```", text, re.DOTALL | re.IGNORECASE)],
    as the backtracking matcher the [re] module runs: every quantifier
    tries its alternatives in priority order (greedy: longest first; lazy:
    shortest first) and hands what is left of the text to its continuation;
    [None] is a failed alternative. *)
Module Re.

(** The code points a literal of the pattern accepts under [re.IGNORECASE],
    for the literals this pattern has: the letters of [json] in both cases
    (and, for [s], U+017F LATIN SMALL LETTER LONG S, which the [re] module
    treats as a case variant of [s]); the other literals are uncased. *)
Definition ci_class (p : N) : list N :=
  if (p =? 106)%N then [106; 74]%N
  else if (p =? 115)%N then [115; 83; 383]%N
  else if (p =? 111)%N then [111; 79]%N
  else if (p =? 110)%N then [110; 78]%N
  else [p].

Definition ci_accepts (p c : N) : bool := existsb (N.eqb c) (ci_class p).

(** A literal piece of the pattern, at the start of [s]; the result is the
    text after it. *)
Fixpoint literal_ci (pat s : str) : option str :=
  match pat with
  | [] => Some s
  | p :: pat' =>
      match s with
      | c :: s' => if ci_accepts p c then literal_ci pat' s' else None
      | [] => None
      end
  end.

Section Quantifiers.
Context {A : Type}.

(** [cls*]: as many code points of the class as possible, backing off one
    at a time while the continuation fails. *)
Fixpoint star_greedy (cls : N -> bool) (s : str) (k : str -> option A) : option A :=
  match s with
  | c :: s' =>
      if cls c
      then match star_greedy cls s' k with
           | Some r => Some r
           | None => k s
           end
      else k s
  | [] => k []
  end.

(** [.*?] under [re.DOTALL]: as few code points as possible, any code
    point allowed; [acc] is what the quantifier has consumed so far. *)
Fixpoint dot_star_lazy (acc s : str) (k : str -> str -> option A) : option A :=
  match k acc s with
  | Some r => Some r
  | None =>
      match s with
      | c :: s' => dot_star_lazy (acc ++ [c]) s' k
      | [] => None
      end
  end.
End Quantifiers.

Definition open_fence : str := Eval vm_compute in lit "```json".
Definition close_fence : str := Eval vm_compute in lit "```".
Definition lbrace : N := 123%N.
Definition rbrace : N := 125%N.

(** The pattern anchored at the start of [s]; the result is group 1. *)
Definition match_here (s : str) : option str :=
  match literal_ci open_fence s with
  | None => None
  | Some r0 =>
      star_greedy isspace r0 (fun r1 =>
        match r1 with
        | c :: r2 =>
            if (c =? lbrace)%N
            then dot_star_lazy [] r2 (fun inner r3 =>
                   match r3 with
                   | d :: r4 =>
                       if (d =? rbrace)%N
                       then star_greedy isspace r4 (fun r5 =>
                              match literal_ci close_fence r5 with
                              | Some _ => Some (lbrace :: inner ++ [rbrace])
                              | None => None
                              end)
                       else None
                   | [] => None
                   end)
            else None
        | [] => None
        end)
  end.

(** [re.search]: the first start position, from the left, where the
    pattern matches. *)
Fixpoint search (s : str) : option str :=
  match match_here s with
  | Some g => Some g
  | None =>
      match s with
      | [] => None
      | _ :: s' => search s'
      end
  end.

(** *** The specification's wording of a fenced block

    "A fenced block of the form [```json { ... } ```] (case-insensitive
    fence marker)": the opening fence in any case, optional whitespace, a
    braced text, optional whitespace, the closing fence. *)
Definition opens_fence (f : str) : Prop :=
  Forall2 (fun p c => ci_accepts p c = true) open_fence f.

Definition all_space (w : str) : Prop := Forall (fun c => isspace c = true) w.

Definition fenced_block (blk braced : str) : Prop :=
  exists f ws1 inner ws2,
    blk = f ++ ws1 ++ braced ++ ws2 ++ close_fence /\
    braced = lbrace :: inner ++ [rbrace] /\
    opens_fence f /\ all_space ws1 /\ all_space ws2.

Definition contains_fenced_block (text braced : str) : Prop :=
  exists pre blk post, text = pre ++ blk ++ post /\ fenced_block blk braced.

End Re.

(** ** [extract_json_from_response] *)

Definition startswith (c : N) (s : str) : bool :=
  match s with
  | x :: _ => (x =? c)%N
  | [] => false
  end.

Definition endswith (c : N) (s : str) : bool :=
  match last s with
  | Some x => (x =? c)%N
  | None => false
  end.

Definition extract_json_from_response (text : str) : str :=
  match Re.search text with
  | Some group1 => group1
  | None =>
      let text := strip text in
      if startswith Re.lbrace text && endswith Re.rbrace text
      then text
      else text
  end.

(** ** Python values

    What [json.loads] and [request.get_json()] return. A JSON object is a
    [dict] with [str] keys. *)
#[warnings="-register-all"]
Inductive pyval :=
| PyNone
| PyBool (b : bool)
| PyInt (z : Z)
| PyFloat (f : spec_float)
| PyStr (s : str)
| PyList (l : list pyval)
| PyDict (m : gmap str pyval).

(** Truth value of a Python object, as [not data] tests it. *)
Definition truthy (v : pyval) : bool :=
  match v with
  | PyNone => false
  | PyBool b => b
  | PyInt z => negb (z =? 0)%Z
  | PyFloat (S754_zero _) => false
  | PyFloat _ => true
  | PyStr s => nonempty s
  | PyList l => match l with [] => false | _ => true end
  | PyDict m => negb (bool_decide (m = ∅))
  end.

(** [type(v).__name__]. *)
Definition type_name (v : pyval) : str :=
  match v with
  | PyNone => lit "NoneType"
  | PyBool _ => lit "bool"
  | PyInt _ => lit "int"
  | PyFloat _ => lit "float"
  | PyStr _ => lit "str"
  | PyList _ => lit "list"
  | PyDict _ => lit "dict"
  end.

(** [v == "..."] for a string literal of the source. *)
Definition eq_str (v : pyval) (s : str) : bool :=
  match v with
  | PyStr t => str_eqb t s
  | _ => false
  end.

(** ** Exceptions *)

Inductive exn_class :=
| BadRequest        (* werkzeug's, raised by [request.get_json()] *)
| AttributeError
| JSONDecodeError   (* a subclass of [ValueError] *)
| ValueError        (* [ValueError] itself and its other subclasses *)
| ApiFailure        (* the errors of the API client, all derived from [Exception] *)
| RecursionError    (* raised by [json.loads] on deeply nested text *)
| KeyboardInterrupt (* derived from [BaseException] only *)
| SystemExit.       (* derived from [BaseException] only *)

(** [isinstance(e, Exception)]: what [except Exception] catches. *)
Definition is_exception (c : exn_class) : bool :=
  match c with
  | KeyboardInterrupt | SystemExit => false
  | _ => true
  end.

(** An exception: its class and its [str()]. *)
Record exn := Exn { exn_class_of : exn_class; exn_str : str }.

Inductive res (A : Type) :=
| Ok (a : A)
| Raise (e : exn).
Arguments Ok {A} a.
Arguments Raise {A} e.

Definition bind {A B} (x : res A) (f : A -> res B) : res B :=
  match x with
  | Ok a => f a
  | Raise e => Raise e
  end.

Notation "'let!' x ':=' c1 'in' c2" := (bind c1 (fun x => c2))
  (at level 10, x name, c1 at level 100, c2 at level 200).

Definition no_attribute (v : pyval) (attr : string) : exn :=
  Exn AttributeError
    (lit "'" ++ type_name v ++ lit "' object has no attribute '" ++ lit attr ++ lit "'").

(** [v.get(key, default)]: only a [dict] has the method. *)
Definition py_get (v : pyval) (key : str) (default : pyval) : res pyval :=
  match v with
  | PyDict m => Ok (match m !! key with Some x => x | None => default end)
  | _ => Raise (no_attribute v "get")
  end.

(** [v.strip()]: only a [str] has the method. *)
Definition py_strip (v : pyval) : res str :=
  match v with
  | PyStr s => Ok (strip s)
  | _ => Raise (no_attribute v "strip")
  end.

(** ** The HTTP side *)

(** The request as [request.get_json()] sees it, for a request that
    declares a JSON body: when the body is not valid JSON, Flask calls
    [on_json_loading_failed], which raises [BadRequest]; otherwise the
    parsed value is returned (JSON [null] is [None]). *)
Inductive request_body :=
| NotJson
| Json (data : pyval).

Definition get_json (req : request_body) : res pyval :=
  match req with
  | NotJson => Raise (Exn BadRequest (lit "400 Bad Request"))
  | Json data => Ok data
  end.

(** [jsonify(d), status] for a [dict] of strings. *)
Record response := Response { body : gmap str str; status : Z }.

Definition error_body (msg : str) : gmap str str := {[ lit "error" := msg ]}.

(** ** The completion API and the observable effects *)

(** What one call of [client.chat.completions.create] does: it raises an
    error derived from [Exception] (the [str()] of the exception is kept),
    or it returns a response whose [choices[0].message.content] is a [str]
    or [None], or the call is left by an exception of any other kind (a
    [KeyboardInterrupt] or [SystemExit] while the handler waits for the
    answer). The environment is a function from the attempt number to the
    outcome of that call. *)
Inductive api_outcome :=
| ApiRaises (msg : str)
| ApiReturns (content : pyval)
| ApiInterrupted (e : exn).

Inductive event :=
| ApiCall (attempt : nat) (prompt : str)
| Sleep (seconds : Z).



Definition nl : N := 10%N.

(** The f-string of lines 56-76. *)
Definition build_prompt (name : str) : str :=
  join [nl]
    [[];
     lit "        You are an expert in name classification. Determine if the name '" ++ name ++ lit "' is a realistic human name, used in any culture.";
     lit "        Consider the name regardless of its capitalization. ";
     [];
     lit "        A name is considered unrealistic if:";
     lit "        * It contains characters other than letters (a-z, A-Z), spaces, hyphens (-), and dots (.).";
     lit "        * It is less than three letter in total (excluding spaces, hyphens, and dots).";
     [];
     lit "        Examples of realistic names: 'Mohiuddin Mohi', 'Aisha Khan', 'Sheik Kaykaus', 'Mr. Hanif Uddin', 'John-Doe', 'Mary.Anne Smith', 'm. a. h. hashan', 'p. k. kibria', 'M. k. robi mullah'.";
     lit "        Examples of unrealistic names: 'Abdullah123'(contains numbers), 'Table Chair'(common phrase), 'Qwert' (Keyboard Pattern), 'asif.azad'(resembles email), 'm.ahmed'(resembles email).";
     [];
     lit "        Respond in JSON format. If the name is 'Realistic', the JSON should only contain:";
     lit "        {";
     lit "            " ++ [dq] ++ lit "prediction" ++ [dq] ++ lit ": " ++ [dq] ++ lit "Realistic" ++ [dq];
     lit "        }";
     lit "        If the name is 'Not Realistic', the JSON should contain:";
     lit "        {";
     lit "            " ++ [dq] ++ lit "prediction" ++ [dq] ++ lit ": " ++ [dq] ++ lit "Not Realistic" ++ [dq] ++ lit ",";
     lit "            " ++ [dq] ++ lit "reason" ++ [dq] ++ lit ": " ++ [dq] ++ lit "<brief reason (max 50 character) why the name is not realistic>" ++ [dq];
     lit "        }";
     lit "        "].
Arguments build_prompt : simpl never.

(** ** The handler *)

(** Local variables of [predict] that the retry loop assigns. *)
Record locals := Locals {
  prediction_result : pyval;
  openai_error_message : option str;
  ai_reason : pyval
}.

(** How one iteration of the [for] loop ends. *)
Inductive ctl :=
| Next (st : locals)          (* falls through to the next attempt *)
| Break (st : locals)         (* [break] *)
| Return (r : response)       (* [return] from inside the loop *)
| Propagate (e : exn).        (* an exception that no handler of the loop catches *)

Definition max_retries : nat := 3.

(** The locals on entry to the loop (lines 79-81). *)
Definition initial : locals := Locals PyNone None PyNone.

Section Handler.

(** [json.loads] on a [str]: the parsed value, or the exception it raises.
    That is [json.JSONDecodeError] for text that is not JSON, but also a
    plain [ValueError] (an integer literal beyond the digit limit of
    [int]), [RecursionError] (nesting too deep), and whatever interrupts
    it. *)
Variable json_loads : str -> res pyval.

(** Python's [repr] of the values whose [str()] is their [repr]: floats,
    lists and dicts. *)
Variable py_repr : pyval -> str.

(** [str(v)], as the f-string of line 105 formats the offending value. *)
Definition py_str (v : pyval) : str :=
  match v with
  | PyNone => lit "None"
  | PyBool true => lit "True"
  | PyBool false => lit "False"
  | PyInt z => lit (NilZero.string_of_int (Z.to_int z))
  | PyStr s => s
  | PyFloat _ | PyList _ | PyDict _ => py_repr v
  end.

Definition valid_prediction (v : pyval) : bool :=
  eq_str v (lit "Realistic") || eq_str v (lit "Not Realistic").

(** Lines 98-108: the body of the inner [try], up to the assignments.
    The result is [(prediction_value, ai_reason)]. *)
Definition parse_reply (reply_content : str) : res (pyval * pyval) :=
  let json_str_to_parse := extract_json_from_response reply_content in
  match json_loads json_str_to_parse with
  | Raise e => Raise e
  | Ok result =>
      let! prediction_value := py_get result (lit "prediction") PyNone in
      if negb (valid_prediction prediction_value)
      then Raise (Exn ValueError
                    (lit "Invalid prediction value from model: " ++ py_str prediction_value))
      else
        let! reason :=
          (if eq_str prediction_value (lit "Not Realistic")
           then py_get result (lit "reason") PyNone
           else Ok PyNone) in
        Ok (prediction_value, reason)
  end.

(** Lines 85-122: the body of the outer [try] of one attempt. An
    exception that neither inner handler catches ([except
    json.JSONDecodeError], then [except ValueError]) leaves through
    [Raise]. *)
Definition attempt_try (outcome : api_outcome) (st : locals) : res ctl :=
  match outcome with
  | ApiRaises msg => Raise (Exn ApiFailure msg)
  | ApiInterrupted e => Raise e
  | ApiReturns content =>
      let! reply_content := py_strip content in
      match parse_reply reply_content with
      | Ok (prediction_value, reason) =>
          Ok (Break (Locals prediction_value None reason))
      | Raise (Exn JSONDecodeError _) =>
          Ok (Break (Locals (prediction_result st)
                       (Some (lit "Invalid JSON response format from model"))
                       (ai_reason st)))
      | Raise (Exn ValueError ve) =>
          Ok (Break (Locals (prediction_result st) (Some ve) (ai_reason st)))
      | Raise e => Raise e
      end
  end.

(** Lines 84-134: one iteration, with the handler of the outer [try],
    [except Exception as api_error]. *)
Definition attempt_body (api : nat -> api_outcome) (prompt : str)
    (attempt : nat) (st : locals) : list event * ctl :=
  match attempt_try (api attempt) st with
  | Ok c => ([ApiCall attempt prompt], c)
  | Raise api_error =>
      if is_exception (exn_class_of api_error)
      then
        let msg := lit "OpenAI API error: " ++ exn_str api_error in
        let st' := Locals (prediction_result st) (Some msg) (ai_reason st) in
        if (attempt <? max_retries - 1)%nat
        then let wait_time := (2 ^ Z.of_nat attempt)%Z in
             ([ApiCall attempt prompt; Sleep wait_time], Next st')
        else ([ApiCall attempt prompt], Return (Response (error_body msg) 500))
      else ([ApiCall attempt prompt], Propagate api_error)
  end.

(** [for attempt in range(max_retries)]: the locals after the loop, or
    the response that was returned from inside it, or the exception that
    left it. *)
Fixpoint retry_loop (api : nat -> api_outcome) (prompt : str)
    (attempts : list nat) (st : locals) : list event * res (locals + response) :=
  match attempts with
  | [] => ([], Ok (inl st))
  | attempt :: rest =>
      match attempt_body api prompt attempt st with
      | (evs, Next st') =>
          let (evs', out) := retry_loop api prompt rest st' in
          (evs ++ evs', out)
      | (evs, Break st') => (evs, Ok (inl st'))
      | (evs, Return r) => (evs, Ok (inr r))
      | (evs, Propagate e) => (evs, Raise e)
      end
  end.

(** [openai_error_message or 'Unknown error after retries']. *)
Definition or_unknown (m : option str) : str :=
  match m with
  | Some (c :: s) => c :: s
  | Some [] | None => lit "Unknown error after retries"
  end.

(** Lines 137-154: the response after the loop. *)
Definition final_response (name : str) (st : locals) : response :=
  if eq_str (prediction_result st) (lit "Realistic")
  then Response {[ lit "name" := name;
                   lit "prediction" := lit "Realistic";
                   lit "reason" := lit " " ]} 200
  else if eq_str (prediction_result st) (lit "Not Realistic")
  then Response {[ lit "name" := name;
                   lit "prediction" := lit "Not Realistic" ]} 200
  else Response
         (error_body (lit "Failed to get prediction. Last error: "
                      ++ or_unknown (openai_error_message st))) 500.

(** Lines 41-154: the body of the handler's [try]. *)
Definition predict_try (req : request_body) (api : nat -> api_outcome)
    : list event * res response :=
  match get_json req with
  | Raise e => ([], Raise e)
  | Ok data =>
      if negb (truthy data)
      then ([], Ok (Response (error_body (lit "Invalid JSON payload")) 400))
      else
        match (let! raw := py_get data (lit "name") (PyStr []) in py_strip raw) with
        | Raise e => ([], Raise e)
        | Ok name =>
            let name := strip (re_sub_ws name) in
            if negb (nonempty name)
            then ([], Ok (Response (error_body (lit "No name provided")) 400))
            else
              let prompt := build_prompt name in
              match retry_loop api prompt (seq 0 max_retries) initial with
              | (evs, Ok (inr r)) => (evs, Ok r)
              | (evs, Ok (inl st)) => (evs, Ok (final_response name st))
              | (evs, Raise e) => (evs, Raise e)
              end
        end
  end.

(** Lines 38-159: the endpoint, with its catch-all [except Exception]. The
    result is the response, or the exception that leaves the handler. *)
Definition predict (req : request_body) (api : nat -> api_outcome)
    : list event * res response :=
  match predict_try req api with
  | (evs, Ok r) => (evs, Ok r)
  | (evs, Raise e) =>
      if is_exception (exn_class_of e)
      then (evs, Ok (Response (error_body (lit "An unexpected server error occurred")) 500))
      else (evs, Raise e)
  end.

End Handler.

(** An attempt that the loop retries: its outer [try] is left by an
    exception that [except Exception] catches (an error of the API, a
    response without text content, a reply that parses to something that
    is not an object, a parser failure that is neither a
    [JSONDecodeError] nor a [ValueError]). *)
Definition retried (json_loads : str -> res pyval) (py_repr : pyval -> str)
    (outcome : api_outcome) : Prop :=
  exists e, is_exception (exn_class_of e) = true
            /\ forall st, attempt_try json_loads py_repr outcome st = Raise e.


(** The response of the catch-all handler. *)
Definition unexpected : response :=
  Response (error_body (lit "An unexpected server error occurred")) 500.

(** The effects of [k] failed attempts that are each followed by a
    backoff: the call, then a sleep of [2 ** attempt] seconds. *)
Definition backoff (prompt : str) (k : nat) : list event :=
  flat_map (fun attempt => [ApiCall attempt prompt; Sleep (2 ^ Z.of_nat attempt)])
           (seq 0 k).

(** ** A small instance

    Concrete replies, a stand-in for [json.loads] that knows them, and two
    behaviours of the completion API, used to run the handler on closed
    inputs. *)
Module Demo.

Definition member (key value : string) : str :=
  quoted (lit key) ++ lit ":" ++ quoted (lit value).

(** The text [{"prediction":"Realistic"}]. *)
Definition realistic_json : str :=
  Eval vm_compute in [Re.lbrace] ++ member "prediction" "Realistic" ++ [Re.rbrace].

(** The text [{"prediction":"Not Realistic","reason":"too short"}]. *)
Definition not_realistic_json : str :=
  Eval vm_compute in
    [Re.lbrace] ++ member "prediction" "Not Realistic" ++ lit ","
      ++ member "reason" "too short" ++ [Re.rbrace].

(** The text [{"prediction":"maybe"}]. *)
Definition maybe_json : str :=
  Eval vm_compute in [Re.lbrace] ++ member "prediction" "maybe" ++ [Re.rbrace].

(** The same, wrapped in a markdown fence. *)
Definition fenced_reply : str :=
  Eval vm_compute in lit "```json " ++ realistic_json ++ lit " ```".

(** A reply that is no JSON at all, with blanks around it. *)
Definition padded_reply : str := Eval vm_compute in lit " sorry ".

Definition loads (s : str) : res pyval :=
  if str_eqb s realistic_json
  then Ok (PyDict {[ lit "prediction" := PyStr (lit "Realistic") ]})
  else if str_eqb s not_realistic_json
  then Ok (PyDict {[ lit "prediction" := PyStr (lit "Not Realistic");
                     lit "reason" := PyStr (lit "too short") ]})
  else if str_eqb s maybe_json
  then Ok (PyDict {[ lit "prediction" := PyStr (lit "maybe") ]})
  else Raise (Exn JSONDecodeError (lit "Expecting value")).

Definition repr (v : pyval) : str := lit "<repr>".

(** The request body [{"name": "  John   Doe "}]. *)
Definition john : gmap str pyval := {[ lit "name" := PyStr (lit "  John   Doe ") ]}.

(** Two failures, then [reply]. *)
Definition flaky (reply : str) (attempt : nat) : api_outcome :=
  match attempt with
  | 0 | 1 => ApiRaises (lit "Connection error.")
  | _ => ApiReturns (PyStr reply)
  end.

(** A backend that is down. *)
Definition down (attempt : nat) : api_outcome := ApiRaises (lit "Connection error.").

(** A backend that answers at once. *)
Definition up (reply : str) (attempt : nat) : api_outcome := ApiReturns (PyStr reply).

End Demo.


(** ** Further vocabulary for the properties below *)

(** The code points of [s] that are not whitespace, in order. *)
Definition visible (s : str) : str := List.filter (fun c => negb (isspace c)) s.

(** No two neighbouring code points of [s] are both whitespace. *)
Fixpoint no_adjacent_space (s : str) : bool :=
  match s with
  | c :: ((d :: _) as s') => negb (isspace c && isspace d) && no_adjacent_space s'
  | _ => true
  end.

(** A name in normal form: nothing to trim at either end, and the only
    whitespace is a single U+0020 between two words. *)
Definition normal_form (s : str) : Prop :=
  lstrip s = s /\ rstrip s = s
  /\ Forall (fun c => isspace c = true -> c = 32%N) s
  /\ no_adjacent_space s = true.

(** Seconds spent in [time.sleep] along a trace. *)
Definition slept (evs : list event) : Z :=
  fold_right (fun e acc => match e with Sleep n => (n + acc)%Z | ApiCall _ _ => acc end)
             0%Z evs.

(** A stand-in for [json.loads] that also knows the text [[1]], a JSON
    array, and a backend that keeps answering with it. *)
Definition array_json : str := Eval vm_compute in lit "[1]".

Definition loads_with_array (s : str) : res pyval :=
  if str_eqb s array_json then Ok (PyList [PyInt 1]) else Demo.loads s.

(** A backend whose responses carry no content. *)
Definition silent (attempt : nat) : api_outcome := ApiReturns PyNone.



(** What the handler body makes of the result of the loop (lines 134 to
    154): the response returned from inside the loop, the response built
    from the locals, or the exception that left the loop. *)
Definition after_loop (name : str) (out : list event * res (locals + response))
    : list event * res response :=
  match out with
  | (evs, Ok (inr r)) => (evs, Ok r)
  | (evs, Ok (inl st)) => (evs, Ok (final_response name st))
  | (evs, Raise e) => (evs, Raise e)
  end.

(** ** Replies and interruptions at the edge

    Texts on which CPython's [json.loads] fails otherwise than with a
    [JSONDecodeError], a stand-in parser that knows them, and behaviours
    of the completion API that go with them. *)
Module Edge.

(** The text of 100000 opening brackets: nested too deeply for the
    recursive scanner of [json]. *)
Definition deep_reply : str := repeat 91%N (N.to_nat 100000).

(** The text [{"prediction": 11...1}] with 4301 digits, one more than
    [int] converts from a string. *)
Definition huge_int_reply : str :=
  [Re.lbrace] ++ quoted (lit "prediction") ++ lit ": " ++ repeat 49%N 4301 ++ [Re.rbrace].

Definition recursion_error : exn :=
  Exn RecursionError (lit "maximum recursion depth exceeded while decoding a JSON document").

Definition digit_limit_error : exn :=
  Exn ValueError
    (lit "Exceeds the limit (4300 digits) for integer string conversion: value has 4301 digits; use sys.set_int_max_str_digits() to increase the limit").

Definition loads_with_limits (s : str) : res pyval :=
  if str_eqb s deep_reply then Raise recursion_error
  else if str_eqb s huge_int_reply then Raise digit_limit_error
  else loads_with_array s.

(** A response without content, then the array [[1]], then [reply]. *)
Definition stumbling (reply : str) (attempt : nat) : api_outcome :=
  match attempt with
  | 0 => ApiReturns PyNone
  | 1 => ApiReturns (PyStr array_json)
  | _ => ApiReturns (PyStr reply)
  end.


End Edge.

(** ** Whitespace lemmas *)

Lemma lstrip_head_nonspace c s : isspace c = false -> lstrip (c :: s) = c :: s.
Proof. intros H. simpl. now rewrite H. Qed.

Lemma rstrip_cons_nonspace c s : isspace c = false -> rstrip (c :: s) = c :: rstrip s.
Proof. intros H. simpl. destruct (rstrip s); [now rewrite H | reflexivity]. Qed.

Lemma rstrip_cons_space c s :
  isspace c = true ->
  rstrip (c :: s) = match rstrip s with [] => [] | r => c :: r end.
Proof. intros H. simpl. destruct (rstrip s); [now rewrite H | reflexivity]. Qed.

(** Inside a run, the replacement has already been written: what is left
    starts with a code point that is not whitespace. *)
Lemma sub_ws_in_run_head s :
  match sub_ws_from true s with
  | [] => True
  | c :: _ => isspace c = false
  end.
Proof.
  induction s as [|c s IH]; simpl; [exact I|].
  destruct (isspace c) eqn:E; [exact IH | exact E].
Qed.

Lemma lstrip_sub_ws_in_run s : lstrip (sub_ws_from true s) = sub_ws_from true s.
Proof.
  pose proof (sub_ws_in_run_head s) as H.
  destruct (sub_ws_from true s) as [|c r]; [reflexivity|].
  now apply lstrip_head_nonspace.
Qed.

Lemma lstrip_sub_ws b s : lstrip (sub_ws_from b s) = sub_ws_from true s.
Proof.
  destruct b; [apply lstrip_sub_ws_in_run|].
  destruct s as [|c s]; simpl; [reflexivity|].
  destruct (isspace c) eqn:E.
  - simpl. apply lstrip_sub_ws_in_run.
  - now apply lstrip_head_nonspace.
Qed.

Lemma words_cons_space c s : isspace c = true -> words (c :: s) = words s.
Proof. intros H. unfold words. simpl. now rewrite H. Qed.

Lemma words_cons_nonspace c s :
  isspace c = false ->
  words (c :: s) =
    match s with
    | [] => [[c]]
    | d :: _ =>
        if isspace d then [c] :: words s
        else match words s with
             | w :: ws => (c :: w) :: ws
             | [] => [[c]]
             end
    end.
Proof.
  intros H. unfold words. simpl. rewrite H.
  destruct s as [|d s]; [reflexivity|].
  simpl. destruct (isspace d) eqn:E; [reflexivity|].
  destruct (fields s) as [|w ws]; reflexivity.
Qed.

Lemma words_nonspace_head_not_nil c s : isspace c = false -> words (c :: s) <> [].
Proof.
  intros H. rewrite (words_cons_nonspace _ _ H).
  destruct s as [|d s]; [discriminate|].
  destruct (isspace d); [discriminate|].
  destruct (words (d :: s)); discriminate.
Qed.

Lemma words_all_nonempty s : Forall (fun w => w <> []) (words s).
Proof.
  unfold words. apply List.Forall_forall. intros w Hw.
  apply List.filter_In in Hw. destruct Hw as [_ Hw].
  destruct w; [discriminate | discriminate].
Qed.

Lemma join_nil_iff sep l : Forall (fun w => w <> []) l -> join sep l = [] -> l = [].
Proof.
  intros Hall Hj. destruct l as [|w l]; [reflexivity|].
  inversion Hall as [|? ? Hw _]; subst.
  destruct w as [|c w]; [congruence|].
  destruct l; simpl in Hj; discriminate.
Qed.

Lemma join_cons_char c w ws sep : join sep ((c :: w) :: ws) = c :: join sep (w :: ws).
Proof. destruct ws; reflexivity. Qed.

(** The heart of the normalizer: once the leading run is skipped and the
    trailing one trimmed, the substitution leaves the words of the input
    separated by single spaces. *)
Lemma rstrip_sub_ws_words s : rstrip (sub_ws_from true s) = spec_normalized s.
Proof.
  unfold spec_normalized.
  induction s as [|c s IH]; [reflexivity|].
  simpl sub_ws_from. destruct (isspace c) eqn:Ec.
  - now rewrite words_cons_space.
  - rewrite rstrip_cons_nonspace, words_cons_nonspace by assumption.
    destruct s as [|d s]; [reflexivity|].
    simpl sub_ws_from in *. destruct (isspace d) eqn:Ed.
    + rewrite rstrip_cons_space by reflexivity. rewrite IH.
      destruct (words (d :: s)) as [|w ws] eqn:Ew; [reflexivity|].
      change (join [32%N] ([c] :: w :: ws))
        with (c :: 32%N :: join [32%N] (w :: ws)).
      destruct (join [32%N] (w :: ws)) as [|x r] eqn:Ej; [|reflexivity].
      apply join_nil_iff in Ej; [discriminate|].
      rewrite <- Ew. apply words_all_nonempty.
    + rewrite IH.
      destruct (words (d :: s)) as [|w ws] eqn:Ew.
      * now apply words_nonspace_head_not_nil in Ew.
      * now rewrite join_cons_char.
Qed.

Lemma strip_re_sub_ws s : strip (re_sub_ws s) = spec_normalized s.
Proof. unfold strip, re_sub_ws. rewrite lstrip_sub_ws. apply rstrip_sub_ws_words. Qed.

Lemma words_lstrip s : words (lstrip s) = words s.
Proof.
  induction s as [|c s IH]; [reflexivity|].
  simpl. destruct (isspace c) eqn:E; [|reflexivity].
  now rewrite words_cons_space.
Qed.

Lemma rstrip_head s e r : rstrip s = e :: r -> exists s', s = e :: s'.
Proof.
  destruct s as [|c s]; simpl; [discriminate|].
  destruct (rstrip s).
  - destruct (isspace c); [discriminate|]. intros [= <- _]. now exists s.
  - intros [= <- _]. now exists s.
Qed.

Lemma words_rstrip s : words (rstrip s) = words s.
Proof.
  induction s as [|c s IH]; [reflexivity|].
  destruct (isspace c) eqn:Ec.
  - rewrite rstrip_cons_space, words_cons_space by assumption.
    destruct (rstrip s) as [|e r] eqn:Er; [exact IH|].
    now rewrite words_cons_space.
  - rewrite rstrip_cons_nonspace by assumption.
    rewrite !words_cons_nonspace by assumption.
    destruct (rstrip s) as [|e r] eqn:Er.
    + destruct s as [|d s]; [reflexivity|].
      destruct (isspace d) eqn:Ed.
      * now rewrite <- IH.
      * symmetry in IH. now apply words_nonspace_head_not_nil in IH.
    + destruct (rstrip_head _ _ _ Er) as [s' ->].
      now rewrite IH.
Qed.

Lemma words_strip s : words (strip s) = words s.
Proof. unfold strip. now rewrite words_rstrip, words_lstrip. Qed.

(** The handler's normalization computes the specification's normal form. *)
Lemma normalize_name_spec s : normalize_name s = spec_normalized s.
Proof.
  unfold normalize_name. rewrite strip_re_sub_ws.
  unfold spec_normalized. now rewrite words_strip.
Qed.

Lemma words_ws_free s : Forall ws_free (words s).
Proof.
  induction s as [|c s IH]; [constructor|].
  destruct (isspace c) eqn:Ec.
  - now rewrite words_cons_space.
  - rewrite words_cons_nonspace by assumption.
    destruct s as [|d s]; [repeat constructor; assumption|].
    destruct (isspace d).
    + constructor; [repeat constructor; assumption | exact IH].
    + destruct (words (d :: s)) as [|w ws]; [repeat constructor; assumption|].
      inversion IH; subst. constructor; [constructor|]; assumption.
Qed.

Lemma words_word_app w t :
  w <> [] -> ws_free w ->
  match t with [] => True | d :: _ => isspace d = true end ->
  words (w ++ t) = w :: words t.
Proof.
  intros Hne Hw Ht. induction w as [|c w IH]; [congruence|].
  inversion Hw as [|? ? Hc Hw']; subst. simpl app.
  rewrite words_cons_nonspace by assumption.
  destruct w as [|e w]; simpl app.
  - destruct t as [|d t]; [reflexivity|]. now rewrite Ht.
  - inversion Hw' as [|? ? He _]; subst. rewrite He.
    simpl app in IH. rewrite IH; [reflexivity | discriminate | assumption].
Qed.

Lemma words_join l :
  Forall (fun w => w <> []) l -> Forall ws_free l -> words (join [32%N] l) = l.
Proof.
  induction l as [|w l IH]; intros Hne Hfree; [reflexivity|].
  inversion Hne; inversion Hfree; subst.
  destruct l as [|w' l].
  - simpl. rewrite <- (app_nil_r w) at 1. now rewrite words_word_app.
  - change (join [32%N] (w :: w' :: l)) with (w ++ 32%N :: join [32%N] (w' :: l)).
    rewrite words_word_app by (assumption || reflexivity).
    rewrite words_cons_space by reflexivity. now rewrite IH.
Qed.

Lemma spec_normalized_idem s : spec_normalized (spec_normalized s) = spec_normalized s.
Proof.
  unfold spec_normalized at 1 3. f_equal.
  unfold spec_normalized. apply words_join; [apply words_all_nonempty | apply words_ws_free].
Qed.

(** ** The matcher against the declarative fenced block *)

Section QuantifierLemmas.
Context {A : Type}.
Implicit Types (k : str -> option A).

Lemma star_greedy_sound cls s k r :
  Re.star_greedy cls s k = Some r ->
  exists ws rest,
    s = ws ++ rest /\ Forall (fun c => cls c = true) ws /\ k rest = Some r.
Proof.
  induction s as [|c s IH]; simpl.
  - intros H. now exists [], [].
  - destruct (cls c) eqn:Ec.
    + destruct (Re.star_greedy cls s k) as [r'|] eqn:Es.
      * intros [= <-]. destruct (IH eq_refl) as (ws & rest & -> & Hws & Hk).
        exists (c :: ws), rest. repeat split; [constructor|]; assumption.
      * intros H. now exists [], (c :: s).
    + intros H. now exists [], (c :: s).
Qed.

Lemma star_greedy_skip cls s k : is_Some (k s) -> is_Some (Re.star_greedy cls s k).
Proof.
  intros H. destruct s as [|c s]; simpl; [exact H|].
  destruct (cls c); [|exact H].
  destruct (Re.star_greedy cls s k); [eauto | exact H].
Qed.

Lemma star_greedy_complete cls ws rest k :
  Forall (fun c => cls c = true) ws ->
  is_Some (k rest) -> is_Some (Re.star_greedy cls (ws ++ rest) k).
Proof.
  intros Hws Hk. induction Hws as [|c ws Hc _ IH]; simpl.
  - now apply star_greedy_skip.
  - rewrite Hc. destruct IH as [r ->]. eauto.
Qed.
End QuantifierLemmas.

Section LazyLemmas.
Context {A : Type}.
Implicit Types (k : str -> str -> option A).

Lemma dot_star_lazy_sound acc s k r :
  Re.dot_star_lazy acc s k = Some r ->
  exists b rest, s = b ++ rest /\ k (acc ++ b) rest = Some r.
Proof.
  revert acc. induction s as [|c s IH]; intros acc; simpl.
  - destruct (k acc []) eqn:E; [|discriminate].
    intros [= <-]. exists [], []. split; [reflexivity | now rewrite app_nil_r].
  - destruct (k acc (c :: s)) eqn:E.
    + intros [= <-]. exists [], (c :: s). split; [reflexivity | now rewrite app_nil_r].
    + intros H. destruct (IH _ H) as (b & rest & -> & Hk).
      exists (c :: b), rest. split; [reflexivity|].
      now rewrite <- app_assoc in Hk.
Qed.

Lemma dot_star_lazy_complete acc b rest k :
  is_Some (k (acc ++ b) rest) -> is_Some (Re.dot_star_lazy acc (b ++ rest) k).
Proof.
  revert acc. induction b as [|c b IH]; intros acc H.
  - rewrite app_nil_r in H. simpl.
    destruct rest; simpl; destruct H as [r ->]; eauto.
  - simpl. destruct (k acc (c :: b ++ rest)); [eauto|].
    apply IH. now rewrite <- app_assoc.
Qed.
End LazyLemmas.

Lemma literal_ci_sound pat s r :
  Re.literal_ci pat s = Some r ->
  exists f, s = f ++ r /\ Forall2 (fun p c => Re.ci_accepts p c = true) pat f.
Proof.
  revert s. induction pat as [|p pat IH]; intros s; simpl.
  - intros [= <-]. exists []. split; [reflexivity | constructor].
  - destruct s as [|c s]; [discriminate|].
    destruct (Re.ci_accepts p c) eqn:E; [|discriminate].
    intros H. destruct (IH _ H) as (f & -> & Hf).
    exists (c :: f). split; [reflexivity | constructor; assumption].
Qed.

Lemma literal_ci_complete pat f r :
  Forall2 (fun p c => Re.ci_accepts p c = true) pat f ->
  Re.literal_ci pat (f ++ r) = Some r.
Proof.
  intros H. induction H as [|p c pat f Hpc _ IH]; simpl; [reflexivity|].
  now rewrite Hpc.
Qed.

Lemma close_fence_exact f :
  Forall2 (fun p c => Re.ci_accepts p c = true) Re.close_fence f -> f = Re.close_fence.
Proof.
  intros H. unfold Re.close_fence in H.
  repeat match goal with
         | H : Forall2 _ (_ :: _) _ |- _ => inversion H; clear H; subst
         | H : Forall2 _ [] _ |- _ => inversion H; clear H; subst
         | H : Re.ci_accepts _ _ = true |- _ =>
             unfold Re.ci_accepts in H; simpl in H;
             rewrite orb_false_r in H; apply N.eqb_eq in H; subst
         end.
  reflexivity.
Qed.

Lemma close_fence_accepts :
  Forall2 (fun p c => Re.ci_accepts p c = true) Re.close_fence Re.close_fence.
Proof. repeat constructor. Qed.

Lemma match_here_sound s g :
  Re.match_here s = Some g -> exists blk post, s = blk ++ post /\ Re.fenced_block blk g.
Proof.
  unfold Re.match_here. intros H.
  destruct (Re.literal_ci Re.open_fence s) as [r0|] eqn:E0; [|discriminate].
  apply literal_ci_sound in E0. destruct E0 as (f & -> & Hf).
  apply star_greedy_sound in H. destruct H as (ws1 & r1 & -> & Hws1 & H).
  destruct r1 as [|c r2]; [discriminate|].
  destruct (c =? Re.lbrace)%N eqn:Ec; [|discriminate]. apply N.eqb_eq in Ec. subst c.
  apply dot_star_lazy_sound in H. destruct H as (inner & r3 & -> & H).
  destruct r3 as [|d r4]; [discriminate|].
  destruct (d =? Re.rbrace)%N eqn:Ed; [|discriminate]. apply N.eqb_eq in Ed. subst d.
  apply star_greedy_sound in H. destruct H as (ws2 & r5 & -> & Hws2 & H).
  destruct (Re.literal_ci Re.close_fence r5) as [post|] eqn:E5; [|discriminate].
  injection H as <-.
  apply literal_ci_sound in E5. destruct E5 as (f' & -> & Hf').
  apply close_fence_exact in Hf'. subst f'.
  exists (f ++ ws1 ++ (Re.lbrace :: inner ++ [Re.rbrace]) ++ ws2 ++ Re.close_fence), post.
  split.
  - simpl. repeat (rewrite <- ?app_assoc; simpl). reflexivity.
  - exists f, ws1, inner, ws2. repeat split; assumption.
Qed.

Lemma match_here_complete blk post g :
  Re.fenced_block blk g -> is_Some (Re.match_here (blk ++ post)).
Proof.
  intros (f & ws1 & inner & ws2 & -> & -> & Hf & Hws1 & Hws2).
  replace ((f ++ ws1 ++ (Re.lbrace :: inner ++ [Re.rbrace]) ++ ws2 ++ Re.close_fence) ++ post)
    with (f ++ ws1 ++ Re.lbrace :: inner ++ Re.rbrace :: ws2 ++ Re.close_fence ++ post)
    by (simpl; repeat (rewrite <- ?app_assoc; simpl); reflexivity).
  unfold Re.match_here. rewrite (literal_ci_complete _ _ _ Hf).
  apply star_greedy_complete; [exact Hws1|].
  rewrite N.eqb_refl.
  apply dot_star_lazy_complete. cbv beta iota.
  rewrite N.eqb_refl.
  apply star_greedy_complete; [exact Hws2|].
  rewrite (literal_ci_complete _ _ _ close_fence_accepts). eauto.
Qed.

Lemma search_sound s g : Re.search s = Some g -> Re.contains_fenced_block s g.
Proof.
  induction s as [|c s IH].
  - discriminate.
  - simpl. destruct (Re.match_here (c :: s)) eqn:E.
    + intros [= <-]. apply match_here_sound in E. destruct E as (blk & post & E & Hb).
      exists [], blk, post. now split.
    + intros H. destruct (IH H) as (pre & blk & post & -> & Hb).
      exists (c :: pre), blk, post. now split.
Qed.

Lemma search_unfold s :
  Re.search s =
    match Re.match_here s with
    | Some g => Some g
    | None => match s with [] => None | _ :: s' => Re.search s' end
    end.
Proof. destruct s; reflexivity. Qed.

Lemma search_complete s g : Re.contains_fenced_block s g -> is_Some (Re.search s).
Proof.
  intros (pre & blk & post & -> & Hb).
  induction pre as [|c pre IH].
  - simpl app. pose proof (match_here_complete blk post g Hb) as [g' Hg'].
    rewrite search_unfold, Hg'. eauto.
  - simpl. destruct (Re.match_here (c :: pre ++ blk ++ post)); [eauto | exact IH].
Qed.

Lemma search_none_iff s : Re.search s = None <-> forall g, ~ Re.contains_fenced_block s g.
Proof.
  split.
  - intros H g Hc. apply search_complete in Hc. rewrite H in Hc. now destruct Hc.
  - intros H. destruct (Re.search s) as [g|] eqn:E; [|reflexivity].
    apply search_sound in E. now apply H in E.
Qed.

(** The three return statements of [extract_json_from_response]. *)
Lemma extract_fenced text g :
  Re.search text = Some g -> extract_json_from_response text = g.
Proof. unfold extract_json_from_response. now intros ->. Qed.

Lemma extract_unfenced text :
  Re.search text = None -> extract_json_from_response text = strip text.
Proof.
  unfold extract_json_from_response. intros ->. cbv zeta.
  now destruct (startswith Re.lbrace (strip text) && endswith Re.rbrace (strip text)).
Qed.

(** ** The handler before the retry loop *)

Section HandlerLemmas.
Variable json_loads : str -> res pyval.
Variable py_repr : pyval -> str.

Local Abbreviation predict := (predict json_loads py_repr).
Local Abbreviation predict_try := (predict_try json_loads py_repr).
Local Abbreviation retry_loop := (retry_loop json_loads py_repr).
Local Abbreviation attempt_body := (attempt_body json_loads py_repr).

Lemma truthy_dict_lookup (m : gmap str pyval) k v :
  m !! k = Some v -> truthy (PyDict m) = true.
Proof.
  intros H. simpl. apply negb_true_iff, bool_decide_eq_false.
  intros ->. now rewrite lookup_empty in H.
Qed.

Lemma truthy_dict_nonempty (m : gmap str pyval) : m <> ∅ -> truthy (PyDict m) = true.
Proof. intros H. simpl. now apply negb_true_iff, bool_decide_eq_false. Qed.

(** A body that carries a [str] name reaches the loop exactly when the
    normalized name is not empty. *)
Lemma predict_try_named (m : gmap str pyval) s api :
  m !! lit "name" = Some (PyStr s) ->
  predict_try (Json (PyDict m)) api =
    let name := normalize_name s in
    if negb (nonempty name)
    then ([], Ok (Response (error_body (lit "No name provided")) 400))
    else match retry_loop api (build_prompt name) (seq 0 max_retries)
                 initial with
         | (evs, Ok (inr r)) => (evs, Ok r)
         | (evs, Ok (inl st)) => (evs, Ok (final_response name st))
         | (evs, Raise e) => (evs, Raise e)
         end.
Proof using Type.
  intros H. unfold predict_try. cbn [get_json].
  rewrite (truthy_dict_lookup _ _ _ H). cbn [negb py_get bind py_strip].
  rewrite H. reflexivity.
Qed.

Lemma predict_try_unnamed (m : gmap str pyval) api :
  m <> ∅ -> m !! lit "name" = None ->
  predict_try (Json (PyDict m)) api =
    ([], Ok (Response (error_body (lit "No name provided")) 400)).
Proof.
  intros Hm H. unfold predict_try. cbn [get_json].
  rewrite (truthy_dict_nonempty _ Hm). cbn [negb py_get bind py_strip].
  rewrite H. reflexivity.
Qed.

(** *** One attempt *)

(** The handler of the outer [try], for an exception it catches. *)
Lemma attempt_body_fails api prompt a st e :
  attempt_try json_loads py_repr (api a) st = Raise e ->
  is_exception (exn_class_of e) = true ->
  attempt_body api prompt a st =
    let err := lit "OpenAI API error: " ++ exn_str e in
    if (a <? max_retries - 1)%nat
    then ([ApiCall a prompt; Sleep (2 ^ Z.of_nat a)],
          Next (Locals (prediction_result st) (Some err) (ai_reason st)))
    else ([ApiCall a prompt], Return (Response (error_body err) 500)).
Proof. intros H He. unfold attempt_body. now rewrite H, He. Qed.

Lemma attempt_body_raises api prompt a st msg :
  api a = ApiRaises msg ->
  attempt_body api prompt a st =
    let err := lit "OpenAI API error: " ++ msg in
    if (a <? max_retries - 1)%nat
    then ([ApiCall a prompt; Sleep (2 ^ Z.of_nat a)],
          Next (Locals (prediction_result st) (Some err) (ai_reason st)))
    else ([ApiCall a prompt], Return (Response (error_body err) 500)).
Proof. intros H. unfold attempt_body. now rewrite H. Qed.

Lemma raises_retried (outcome : api_outcome) msg :
  outcome = ApiRaises msg -> retried json_loads py_repr outcome.
Proof. intros ->. exists (Exn ApiFailure msg). split; reflexivity. Qed.

Lemma valid_prediction_false v :
  valid_prediction v = false <->
  v <> PyStr (lit "Realistic") /\ v <> PyStr (lit "Not Realistic").
Proof.
  unfold valid_prediction, eq_str, str_eqb. destruct v; try (split; [split; discriminate | reflexivity]).
  rewrite orb_false_iff, !bool_decide_eq_false. split.
  - intros [H1 H2]. split; congruence.
  - intros [H1 H2]. split; congruence.
Qed.

Lemma parse_reply_raises (rc : str) (e : exn) :
  json_loads (extract_json_from_response rc) = Raise e ->
  parse_reply json_loads py_repr rc = Raise e.
Proof. unfold parse_reply. now intros ->. Qed.

Lemma parse_reply_invalid (rc : str) (o : gmap str pyval) (v : pyval) :
  json_loads (extract_json_from_response rc) = Ok (PyDict o) ->
  v = match o !! lit "prediction" with Some x => x | None => PyNone end ->
  valid_prediction v = false ->
  parse_reply json_loads py_repr rc =
    Raise (Exn ValueError (lit "Invalid prediction value from model: " ++ py_str py_repr v)).
Proof.
  unfold parse_reply. intros -> -> Hv. cbn [py_get bind]. now rewrite Hv.
Qed.

Lemma parse_reply_valid (rc : str) (o : gmap str pyval) (v : pyval) :
  json_loads (extract_json_from_response rc) = Ok (PyDict o) ->
  o !! lit "prediction" = Some v ->
  valid_prediction v = true ->
  exists reason, parse_reply json_loads py_repr rc = Ok (v, reason).
Proof.
  unfold parse_reply. intros -> Ho Hv. cbn [py_get bind]. rewrite Ho, Hv.
  cbn [negb]. destruct (eq_str v (lit "Not Realistic")); cbn [py_get bind]; eauto.
Qed.

(** *** The loop after [k] failed calls *)

Lemma retry_loop_cons api prompt a rest st :
  retry_loop api prompt (a :: rest) st =
    match attempt_body api prompt a st with
    | (evs, Next st') =>
        let (evs', out) := retry_loop api prompt rest st' in (evs ++ evs', out)
    | (evs, Break st') => (evs, Ok (inl st'))
    | (evs, Return r) => (evs, Ok (inr r))
    | (evs, Propagate e) => (evs, Raise e)
    end.
Proof. reflexivity. Qed.

Lemma retry_loop_break api prompt a n st st' :
  attempt_body api prompt a st = ([ApiCall a prompt], Break st') ->
  retry_loop api prompt (seq a (S n)) st = ([ApiCall a prompt], Ok (inl st')).
Proof. intros H. cbn [seq retry_loop]. now rewrite H. Qed.

Lemma retry_loop_failures api prompt k :
  (k < max_retries)%nat ->
  (forall j, (j < k)%nat -> retried json_loads py_repr (api j)) ->
  exists err,
    retry_loop api prompt (seq 0 max_retries) initial =
      let (evs, out) := retry_loop api prompt (seq k (max_retries - k))
                          (Locals PyNone err PyNone) in
      (backoff prompt k ++ evs, out).
Proof.
  unfold max_retries, initial. intros Hk H.
  destruct k as [|[|[|k]]]; [| | |lia].
  - exists None. cbn [backoff seq flat_map app Nat.sub].
    now destruct (retry_loop api prompt [0; 1; 2]%nat _).
  - destruct (H 0%nat ltac:(lia)) as (e0 & He0 & H0).
    exists (Some (lit "OpenAI API error: " ++ exn_str e0)).
    change (seq 0 3) with (0 :: seq 1 2)%nat. rewrite retry_loop_cons.
    rewrite (attempt_body_fails _ _ _ _ _ (H0 _) He0). cbn -[retry_loop].
    now destruct (retry_loop api prompt _ _).
  - destruct (H 0%nat ltac:(lia)) as (e0 & He0 & H0), (H 1%nat ltac:(lia)) as (e1 & He1 & H1).
    exists (Some (lit "OpenAI API error: " ++ exn_str e1)).
    change (seq 0 3) with (0 :: 1 :: seq 2 1)%nat. rewrite retry_loop_cons.
    rewrite (attempt_body_fails _ _ _ _ _ (H0 _) He0). cbn -[retry_loop attempt_body].
    rewrite retry_loop_cons.
    rewrite (attempt_body_fails _ _ _ _ _ (H1 _) He1). cbn -[retry_loop attempt_body].
    now destruct (retry_loop api prompt _ _).
Qed.

Lemma raising_attempts_retried (api : nat -> api_outcome) k :
  (forall j, (j < k)%nat -> exists msg, api j = ApiRaises msg) ->
  forall j, (j < k)%nat -> retried json_loads py_repr (api j).
Proof. intros H j Hj. destruct (H j Hj) as [msg Hm]. now apply (raises_retried _ msg). Qed.

End HandlerLemmas.

Section EndpointLemmas.
Variable json_loads : str -> res pyval.
Variable py_repr : pyval -> str.

Local Abbreviation predict := (predict json_loads py_repr).
Local Abbreviation parse_reply := (parse_reply json_loads py_repr).

Lemma nonempty_true_iff (s : str) : nonempty s = true <-> s <> [].
Proof. destruct s; split; (reflexivity || discriminate || congruence). Qed.

(** *** An attempt whose call returns a [str] *)

Lemma attempt_body_undecodable (api : nat -> api_outcome) (prompt : str) (a : nat) (st : locals) (reply msg : str) :
  api a = ApiReturns (PyStr reply) ->
  json_loads (extract_json_from_response (strip reply)) = Raise (Exn JSONDecodeError msg) ->
  attempt_body json_loads py_repr api prompt a st =
    ([ApiCall a prompt],
     Break (Locals (prediction_result st)
              (Some (lit "Invalid JSON response format from model"))
              (ai_reason st))).
Proof.
  intros Ha Hj. unfold attempt_body, attempt_try. rewrite Ha. cbn [py_strip bind].
  now rewrite (parse_reply_raises _ _ _ _ Hj).
Qed.

Lemma attempt_body_value_error (api : nat -> api_outcome) (prompt : str) (a : nat) (st : locals) (reply ve : str) :
  api a = ApiReturns (PyStr reply) ->
  json_loads (extract_json_from_response (strip reply)) = Raise (Exn ValueError ve) ->
  attempt_body json_loads py_repr api prompt a st =
    ([ApiCall a prompt],
     Break (Locals (prediction_result st) (Some ve) (ai_reason st))).
Proof.
  intros Ha Hj. unfold attempt_body, attempt_try. rewrite Ha. cbn [py_strip bind].
  now rewrite (parse_reply_raises _ _ _ _ Hj).
Qed.

Lemma attempt_body_invalid (api : nat -> api_outcome) (prompt : str) (a : nat) (st : locals) (reply : str) (o : gmap str pyval) (v : pyval) :
  api a = ApiReturns (PyStr reply) ->
  json_loads (extract_json_from_response (strip reply)) = Ok (PyDict o) ->
  v = match o !! lit "prediction" with Some x => x | None => PyNone end ->
  valid_prediction v = false ->
  attempt_body json_loads py_repr api prompt a st =
    ([ApiCall a prompt],
     Break (Locals (prediction_result st)
              (Some (lit "Invalid prediction value from model: " ++ py_str py_repr v))
              (ai_reason st))).
Proof.
  intros Ha Hj Hv Hbad. unfold attempt_body, attempt_try. rewrite Ha. cbn [py_strip bind].
  now rewrite (parse_reply_invalid _ _ _ _ _ Hj Hv Hbad).
Qed.

Lemma attempt_body_valid (api : nat -> api_outcome) (prompt : str) (a : nat) (st : locals) (reply : str) (v reason : pyval) :
  api a = ApiReturns (PyStr reply) ->
  parse_reply (strip reply) = Ok (v, reason) ->
  attempt_body json_loads py_repr api prompt a st = ([ApiCall a prompt], Break (Locals v None reason)).
Proof.
  intros Ha Hp. unfold attempt_body, attempt_try. rewrite Ha. cbn [py_strip bind].
  now rewrite Hp.
Qed.

(** *** The endpoint when the loop is left by [break] at attempt [k] *)

Lemma predict_break (m : gmap str pyval) (s : str) (api : nat -> api_outcome) (k : nat) (st' : locals) :
  m !! lit "name" = Some (PyStr s) ->
  normalize_name s <> [] ->
  (k < max_retries)%nat ->
  (forall j, (j < k)%nat -> retried json_loads py_repr (api j)) ->
  (forall err,
      attempt_body json_loads py_repr api (build_prompt (normalize_name s)) k (Locals PyNone err PyNone) =
        ([ApiCall k (build_prompt (normalize_name s))], Break st')) ->
  predict (Json (PyDict m)) api =
    (backoff (build_prompt (normalize_name s)) k
       ++ [ApiCall k (build_prompt (normalize_name s))],
     Ok (final_response (normalize_name s) st')).
Proof.
  intros Hm Hname Hk Hfail Hbody. unfold predict.
  rewrite (predict_try_named _ _ _ _ _ Hm). cbv zeta.
  apply nonempty_true_iff in Hname. rewrite Hname. cbn [negb].
  destruct (retry_loop_failures json_loads py_repr api
              (build_prompt (normalize_name s)) k Hk Hfail) as [err ->].
  replace (max_retries - k)%nat with (S (max_retries - 1 - k)) by lia.
  now rewrite (retry_loop_break _ _ _ _ _ _ _ _ (Hbody err)).
Qed.

(** *** The endpoint when every attempt fails *)

Lemma predict_all_fail (m : gmap str pyval) (s : str) (api : nat -> api_outcome)
    (e0 e1 e2 : exn) :
  m !! lit "name" = Some (PyStr s) ->
  normalize_name s <> [] ->
  is_exception (exn_class_of e0) = true ->
  is_exception (exn_class_of e1) = true ->
  is_exception (exn_class_of e2) = true ->
  (forall st, attempt_try json_loads py_repr (api 0%nat) st = Raise e0) ->
  (forall st, attempt_try json_loads py_repr (api 1%nat) st = Raise e1) ->
  (forall st, attempt_try json_loads py_repr (api 2%nat) st = Raise e2) ->
  predict (Json (PyDict m)) api =
    (backoff (build_prompt (normalize_name s)) 2
       ++ [ApiCall 2 (build_prompt (normalize_name s))],
     Ok (Response (error_body (lit "OpenAI API error: " ++ exn_str e2)) 500)).
Proof.
  intros Hm Hname E0 E1 E2 H0 H1 H2. unfold predict.
  rewrite (predict_try_named _ _ _ _ _ Hm). cbv zeta.
  apply nonempty_true_iff in Hname. rewrite Hname. cbn [negb].
  change (seq 0 max_retries) with [0; 1; 2]%nat.
  rewrite retry_loop_cons, (attempt_body_fails _ _ _ _ _ _ _ (H0 _) E0).
  cbn -[retry_loop attempt_body].
  rewrite retry_loop_cons, (attempt_body_fails _ _ _ _ _ _ _ (H1 _) E1).
  cbn -[retry_loop attempt_body].
  rewrite retry_loop_cons, (attempt_body_fails _ _ _ _ _ _ _ (H2 _) E2).
  reflexivity.
Qed.

Lemma predict_all_raise (m : gmap str pyval) (s : str) (api : nat -> api_outcome) (m1 m2 m3 : str) :
  m !! lit "name" = Some (PyStr s) ->
  normalize_name s <> [] ->
  api 0%nat = ApiRaises m1 -> api 1%nat = ApiRaises m2 -> api 2%nat = ApiRaises m3 ->
  predict (Json (PyDict m)) api =
    (backoff (build_prompt (normalize_name s)) 2
       ++ [ApiCall 2 (build_prompt (normalize_name s))],
     Ok (Response (error_body (lit "OpenAI API error: " ++ m3)) 500)).
Proof.
  intros Hm Hname H0 H1 H2.
  apply (predict_all_fail m s api (Exn ApiFailure m1) (Exn ApiFailure m2) (Exn ApiFailure m3));
    try assumption; try reflexivity; intros st.
  - now rewrite H0.
  - now rewrite H1.
  - now rewrite H2.
Qed.

End EndpointLemmas.

(** ** Every path through the loop *)

Section LoopShape.
Variable json_loads : str -> res pyval.
Variable py_repr : pyval -> str.

(** The outer [try] of an attempt ends normally only through [break]. *)
Lemma attempt_try_ok outcome st c :
  attempt_try json_loads py_repr outcome st = Ok c -> exists st', c = Break st'.
Proof.
  unfold attempt_try. destruct outcome as [msg|content|e]; [discriminate| |discriminate].
  destruct (py_strip content) as [rc|]; [|discriminate]. cbn [bind].
  destruct (parse_reply json_loads py_repr rc) as [[pv reason]|[[] ?]];
    try discriminate; intros [= <-]; eauto.
Qed.

Lemma attempt_body_cases api prompt a st :
  (exists st',
      attempt_body json_loads py_repr api prompt a st = ([ApiCall a prompt], Break st'))
  \/ ((a < max_retries - 1)%nat /\ exists st',
      attempt_body json_loads py_repr api prompt a st =
        ([ApiCall a prompt; Sleep (2 ^ Z.of_nat a)], Next st'))
  \/ (~ (a < max_retries - 1)%nat /\ exists msg,
      attempt_body json_loads py_repr api prompt a st =
        ([ApiCall a prompt], Return (Response (error_body msg) 500)))
  \/ (exists e,
      is_exception (exn_class_of e) = false
      /\ attempt_body json_loads py_repr api prompt a st =
           ([ApiCall a prompt], Propagate e)).
Proof.
  unfold attempt_body.
  destruct (attempt_try json_loads py_repr (api a) st) as [c|e] eqn:E.
  - left. destruct (attempt_try_ok _ _ _ E) as [st' ->]. eauto.
  - right. destruct (is_exception (exn_class_of e)) eqn:He; [|right; right; eauto].
    destruct (a <? max_retries - 1)%nat eqn:Ea.
    + left. apply Nat.ltb_lt in Ea. eauto.
    + right. left. apply Nat.ltb_ge in Ea. split; [lia | eauto].
Qed.


Lemma final_response_shape name st :
  (status (final_response name st) = 200%Z
   /\ body (final_response name st) !! lit "name" = Some name
   /\ (body (final_response name st) !! lit "prediction" = Some (lit "Realistic")
       \/ body (final_response name st) !! lit "prediction" = Some (lit "Not Realistic")))
  \/ (status (final_response name st) = 500%Z
      /\ exists msg, body (final_response name st) = error_body msg).
Proof.
  unfold final_response.
  destruct (eq_str (prediction_result st) (lit "Realistic")); cbn [status body].
  - left. split; [reflexivity|]. split; [apply lookup_insert_eq|]. left.
    rewrite lookup_insert_ne by discriminate. apply lookup_insert_eq.
  - destruct (eq_str (prediction_result st) (lit "Not Realistic")); cbn [status body].
    + left. split; [reflexivity|]. split; [apply lookup_insert_eq|]. right.
      rewrite lookup_insert_ne by discriminate. apply lookup_singleton_eq.
    + right. split; [reflexivity | eauto].
Qed.

Lemma final_response_realistic name st :
  prediction_result st = PyStr (lit "Realistic") ->
  final_response name st =
    Response {[ lit "name" := name;
                lit "prediction" := lit "Realistic";
                lit "reason" := lit " " ]} 200.
Proof. unfold final_response. now intros ->. Qed.

Lemma final_response_not_realistic name st :
  prediction_result st = PyStr (lit "Not Realistic") ->
  final_response name st =
    Response {[ lit "name" := name; lit "prediction" := lit "Not Realistic" ]} 200.
Proof. unfold final_response. now intros ->. Qed.

(** An exception leaves the loop only when it is not an [Exception]. *)
Lemma retry_loop_raises api prompt attempts st evs e :
  retry_loop json_loads py_repr api prompt attempts st = (evs, Raise e) ->
  is_exception (exn_class_of e) = false.
Proof.
  revert st evs. induction attempts as [|a rest IH]; intros st evs; [discriminate|].
  rewrite retry_loop_cons.
  destruct (attempt_body_cases api prompt a st)
    as [[st' ->] | [[_ [st' ->]] | [[_ [msg ->]] | (e' & He' & ->)]]];
    try discriminate.
  - destruct (retry_loop json_loads py_repr api prompt rest st') as [evs' out'] eqn:E.
    intros [= _ ->]. eapply IH, E.
  - now intros [= _ <-].
Qed.

End LoopShape.

(** ** Which attempts take place *)

Section Reach.
Variable json_loads : str -> res pyval.
Variable py_repr : pyval -> str.

(** Whether the outer [try] of an attempt is left by an exception does
    not depend on the locals. *)
Lemma attempt_try_raise_any outcome st st' e :
  attempt_try json_loads py_repr outcome st = Raise e ->
  attempt_try json_loads py_repr outcome st' = Raise e.
Proof.
  unfold attempt_try. destruct outcome as [msg|content|e0]; try easy.
  destruct (py_strip content) as [rc|]; [|easy]. cbn [bind].
  destruct (parse_reply json_loads py_repr rc) as [[pv reason]|[[] ?]]; easy.
Qed.


Lemma backoff_S prompt k :
  backoff prompt (S k) = backoff prompt k ++ [ApiCall k prompt; Sleep (2 ^ Z.of_nat k)].
Proof. unfold backoff. now rewrite seq_S, flat_map_app. Qed.

(** Every iteration starts with its call. *)
Lemma retry_loop_head api prompt a rest st :
  exists evs,
    fst (retry_loop json_loads py_repr api prompt (a :: rest) st) = ApiCall a prompt :: evs.
Proof.
  rewrite retry_loop_cons.
  destruct (attempt_body_cases json_loads py_repr api prompt a st)
    as [[st' ->] | [[_ [st' ->]] | [[_ [msg ->]] | (e & _ & ->)]]]; cbn; eauto.
  destruct (retry_loop json_loads py_repr api prompt rest st'); cbn; eauto.
Qed.

(** Attempt [k] takes place only if every attempt before it was
    retried. *)
Lemma retry_loop_reached api prompt n a st k p :
  In (ApiCall k p) (fst (retry_loop json_loads py_repr api prompt (seq a n) st)) ->
  (a <= k < a + n)%nat
  /\ forall j, (a <= j < k)%nat -> retried json_loads py_repr (api j).
Proof.
  revert a st. induction n as [|n IH]; intros a st; [intros []|].
  cbn [seq]. rewrite retry_loop_cons. unfold attempt_body.
  destruct (attempt_try json_loads py_repr (api a) st) as [c|e] eqn:E.
  - destruct (attempt_try_ok _ _ _ _ _ E) as [st' ->]. cbn.
    intros [[= <- _]|[]]. split; [lia | intros; lia].
  - destruct (is_exception (exn_class_of e)) eqn:He;
      [destruct (a <? max_retries - 1)%nat|].
    + cbn -[retry_loop].
      destruct (retry_loop json_loads py_repr api prompt (seq (S a) n) _)
        as [evs' out'] eqn:E'.
      cbn. intros [[= <- _]|[[=]|Hin]]; [split; [lia | intros; lia]|].
      specialize (IH (S a) (Locals (prediction_result st)
                              (Some (lit "OpenAI API error: " ++ exn_str e))
                              (ai_reason st))).
      rewrite E' in IH. destruct (IH Hin) as [Hr Hj]. split; [lia|].
      intros j Hjr. destruct (Nat.eq_dec j a) as [->|Hne]; [|apply Hj; lia].
      exists e. split; [exact He|]. intros st0. eapply attempt_try_raise_any, E.
    + cbn. intros [[= <- _]|[]]. split; [lia | intros; lia].
    + cbn. intros [[= <- _]|[]]. split; [lia | intros; lia].
Qed.

(** The trace of a request that names someone is the trace of the loop. *)
Lemma predict_named_trace (m : gmap str pyval) (s : str) (api : nat -> api_outcome) :
  m !! lit "name" = Some (PyStr s) ->
  fst (predict json_loads py_repr (Json (PyDict m)) api) =
    if nonempty (normalize_name s)
    then fst (retry_loop json_loads py_repr api (build_prompt (normalize_name s))
                (seq 0 max_retries) initial)
    else [].
Proof.
  intros Hm. unfold predict. rewrite (predict_try_named _ _ _ _ _ Hm). cbv zeta.
  destruct (nonempty (normalize_name s)); [|reflexivity]. cbn [negb].
  destruct (retry_loop json_loads py_repr api _ _ _) as [evs [[st|r]|e]];
    [reflexivity | reflexivity |].
  now destruct (is_exception (exn_class_of e)).
Qed.

(** An attempt that takes place: the name is not empty, the attempt is
    one of the three, and those before it were retried. *)
Lemma predict_reached (m : gmap str pyval) (s : str) (api : nat -> api_outcome)
    (k : nat) (p : str) :
  m !! lit "name" = Some (PyStr s) ->
  In (ApiCall k p) (fst (predict json_loads py_repr (Json (PyDict m)) api)) ->
  normalize_name s <> []
  /\ (k < max_retries)%nat
  /\ forall j, (j < k)%nat -> retried json_loads py_repr (api j).
Proof.
  intros Hm. rewrite (predict_named_trace _ _ _ Hm).
  destruct (nonempty (normalize_name s)) eqn:Hn; [|intros []].
  intros Hin. apply retry_loop_reached in Hin. destruct Hin as [Hr Hj].
  split; [now apply nonempty_true_iff|]. split; [lia|].
  intros j Hlt. apply Hj. lia.
Qed.


End Reach.

(** ** Properties of the normalizer *)

(** Every call of the loop is made with the prompt it was given. *)
Lemma retry_loop_prompts json_loads py_repr api prompt attempts st evs out :
  retry_loop json_loads py_repr api prompt attempts st = (evs, out) ->
  forall a p, In (ApiCall a p) evs -> p = prompt.
Proof.
  revert st evs out. induction attempts as [|a0 rest IH]; intros st evs out.
  - intros [= <- _] a p [].
  - rewrite retry_loop_cons.
    assert (Hbody : forall a p, In (ApiCall a p)
               (fst (attempt_body json_loads py_repr api prompt a0 st)) -> p = prompt).
    { intros a p. unfold attempt_body.
      destruct (attempt_try json_loads py_repr (api a0) st) as [c|e];
        [|destruct (is_exception (exn_class_of e)); [destruct (a0 <? _)%nat|]];
        cbn; intuition congruence. }
    destruct (attempt_body json_loads py_repr api prompt a0 st) as [evs0 [st'|st'|r|e]].
    + destruct (retry_loop json_loads py_repr api prompt rest st') as [evs' out'] eqn:E.
      intros [= <- _] a p Hin. apply in_app_or in Hin. destruct Hin as [Hin|Hin].
      * eapply Hbody, Hin.
      * eapply IH; [exact E | exact Hin].
    + intros [= <- _] a p Hin. eapply Hbody, Hin.
    + intros [= <- _] a p Hin. eapply Hbody, Hin.
    + intros [= <- _] a p Hin. eapply Hbody, Hin.
Qed.

Lemma retry_loop_returns_500 json_loads py_repr api prompt attempts st evs r :
  retry_loop json_loads py_repr api prompt attempts st = (evs, Ok (inr r)) ->
  status r = 500%Z /\ exists msg, body r = error_body msg.
Proof.
  revert st evs. induction attempts as [|a0 rest IH]; intros st evs.
  - discriminate.
  - rewrite retry_loop_cons.
    destruct (attempt_body_cases json_loads py_repr api prompt a0 st)
      as [[st' ->] | [[_ [st' ->]] | [[_ [msg ->]] | (e & _ & ->)]]];
      try discriminate.
    + destruct (retry_loop json_loads py_repr api prompt rest st') as [evs' out'] eqn:E'.
      intros [= _ ->]. eapply IH, E'.
    + intros [= _ <-]. cbn. eauto.
Qed.

Lemma final_response_name name st :
  status (final_response name st) = 200%Z ->
  body (final_response name st) !! lit "name" = Some name.
Proof.
  unfold final_response.
  destruct (eq_str (prediction_result st) (lit "Realistic")); cbn [status body].
  - intros _. apply lookup_insert_eq.
  - destruct (eq_str (prediction_result st) (lit "Not Realistic")); cbn [status body].
    + intros _. apply lookup_insert_eq.
    + discriminate.
Qed.

(** C7 — the name the handler works with is the submitted string with
    leading and trailing whitespace removed and every internal run of
    whitespace replaced by one space: it is the words of the input joined
    by single spaces, it is what every completion call is prompted with
    and what a 200 response echoes; ["  John   Doe "] becomes
    ["John Doe"]. *)
Theorem normalized_name_trimmed_and_collapsed :
  (forall s : str,
     normalize_name s = spec_normalized s /\ words (normalize_name s) = words s)
  /\ (forall json_loads py_repr (m : gmap str pyval) (s : str) api evs out,
        m !! lit "name" = Some (PyStr s) ->
        predict json_loads py_repr (Json (PyDict m)) api = (evs, out) ->
        (forall a p, In (ApiCall a p) evs -> p = build_prompt (spec_normalized s))
        /\ (forall r, out = Ok r -> status r = 200%Z ->
                      body r !! lit "name" = Some (spec_normalized s)))
  /\ normalize_name (lit "  John   Doe ") = lit "John Doe".
Proof.
  split; [|split].
  - intros s. split; [apply normalize_name_spec|].
    rewrite normalize_name_spec. unfold spec_normalized.
    apply words_join; [apply words_all_nonempty | apply words_ws_free].
  - intros json_loads py_repr m s api evs out Hm. unfold predict.
    rewrite (predict_try_named _ _ _ _ _ Hm). cbv zeta.
    rewrite normalize_name_spec.
    destruct (negb (nonempty (spec_normalized s))).
    + intros [= <- <-]. split; [intros a p [] | intros r [= <-]; discriminate].
    + destruct (retry_loop json_loads py_repr api _ _ _) as [evs' [[st|r']|e]] eqn:E.
      * intros [= <- <-]. split; [eapply retry_loop_prompts, E|].
        intros r [= <-]. apply final_response_name.
      * intros [= <- <-]. split; [eapply retry_loop_prompts, E|].
        intros r [= <-].
        apply retry_loop_returns_500 in E. destruct E as [E _]. rewrite E. discriminate.
      * rewrite (retry_loop_raises _ _ _ _ _ _ _ _ E).
        intros [= <- <-]. split; [eapply retry_loop_prompts, E | discriminate].
  - reflexivity.
Qed.

Lemma normalized_name_trimmed_and_collapsed_witness :
  Demo.john !! lit "name" = Some (PyStr (lit "  John   Doe "))
  /\ (forall a p,
        In (ApiCall a p)
           (fst (predict Demo.loads Demo.repr (Json (PyDict Demo.john))
                   (Demo.up Demo.realistic_json))) ->
        p = build_prompt (spec_normalized (lit "  John   Doe "))).
Proof.
  split; [reflexivity|].
  destruct normalized_name_trimmed_and_collapsed as (_ & H & _).
  destruct (predict Demo.loads Demo.repr (Json (PyDict Demo.john))
              (Demo.up Demo.realistic_json)) as [evs out] eqn:E.
  exact (proj1 (H Demo.loads Demo.repr Demo.john _ _ evs out eq_refl E)).
Defined.

(** C8 — normalization is idempotent: normalizing a normalized name
    returns it unchanged. *)
Theorem normalize_name_idempotent (s : str) :
  normalize_name (normalize_name s) = normalize_name s.
Proof. rewrite !normalize_name_spec. apply spec_normalized_idem. Qed.

(** ** Properties of the extraction *)

Lemma demo_fenced_reply_block : Re.contains_fenced_block Demo.fenced_reply Demo.realistic_json.
Proof.
  exists [], Demo.fenced_reply, []. split; [reflexivity|].
  exists Re.open_fence, [32%N],
    (Demo.member "prediction" "Realistic"), [32%N].
  repeat split; try reflexivity; repeat constructor.
Qed.

(** C3 (amended) — [extract_json_from_response] is a function of its
    argument alone. When the text contains a fenced block
    [```json { ... } ```] (fence marker in any case) it returns the braced
    content of such a block; otherwise, when the trimmed text starts with
    an opening and ends with a closing brace, it returns the trimmed text;
    otherwise it returns the trimmed text as well. A reply wrapped as
    [```json {...} ```] around the Realistic verdict yields the verdict's
    text. *)
Theorem extract_json_from_response_cases :
  (forall text braced,
     Re.contains_fenced_block text braced ->
     exists braced',
       Re.contains_fenced_block text braced' /\
       extract_json_from_response text = braced')
  /\ (forall text,
        (forall braced, ~ Re.contains_fenced_block text braced) ->
        startswith Re.lbrace (strip text) && endswith Re.rbrace (strip text) = true ->
        extract_json_from_response text = strip text)
  /\ (forall text,
        (forall braced, ~ Re.contains_fenced_block text braced) ->
        startswith Re.lbrace (strip text) && endswith Re.rbrace (strip text) = false ->
        extract_json_from_response text = strip text)
  /\ extract_json_from_response Demo.fenced_reply = Demo.realistic_json.
Proof.
  repeat split.
  - intros text braced H. destruct (search_complete _ _ H) as [g Hg].
    exists g. split; [now apply search_sound | now apply extract_fenced].
  - intros text H _. now apply extract_unfenced, search_none_iff.
  - intros text H _. now apply extract_unfenced, search_none_iff.
Qed.

Lemma extract_json_from_response_cases_witness :
  (exists braced',
     Re.contains_fenced_block Demo.fenced_reply braced' /\
     extract_json_from_response Demo.fenced_reply = braced')
  /\ extract_json_from_response Demo.realistic_json = strip Demo.realistic_json
  /\ extract_json_from_response Demo.padded_reply = strip Demo.padded_reply.
Proof.
  destruct extract_json_from_response_cases as (H1 & H2 & H3 & _).
  split; [|split].
  - exact (H1 _ _ demo_fenced_reply_block).
  - apply H2; [|reflexivity]. now apply search_none_iff.
  - apply H3; [|reflexivity]. now apply search_none_iff.
Defined.

(** C3 as stated fails in its last case: a text without a fenced block
    whose trimmed form is not braced is returned trimmed, not unchanged. *)
Lemma extract_json_from_response_not_raw :
  (forall braced, ~ Re.contains_fenced_block Demo.padded_reply braced)
  /\ startswith Re.lbrace (strip Demo.padded_reply)
     && endswith Re.rbrace (strip Demo.padded_reply) = false
  /\ extract_json_from_response Demo.padded_reply = lit "sorry"
  /\ extract_json_from_response Demo.padded_reply <> Demo.padded_reply.
Proof.
  split; [now apply search_none_iff|].
  split; [reflexivity|]. split; [reflexivity | discriminate].
Qed.

(** ** Properties of the retry loop *)

(** C1 — when the completion call raises on attempts 1 and 2 and the
    third reply parses to a recognised prediction, the handler sleeps
    exactly twice, 1 second after the first failure and 2 seconds after
    the second, and answers 200 with that prediction; when the call raises
    on all three attempts, nothing follows the third call and the answer
    is 500 with the last API error as its message. *)
Theorem retry_backoff_schedule :
  forall (json_loads : str -> res pyval) (py_repr : pyval -> str)
         (m : gmap str pyval) (s : str) (api : nat -> api_outcome),
    m !! lit "name" = Some (PyStr s) ->
    normalize_name s <> [] ->
    let name := normalize_name s in
    let prompt := build_prompt name in
    (forall (m1 m2 reply : str) (o : gmap str pyval) (p : str),
        api 0%nat = ApiRaises m1 ->
        api 1%nat = ApiRaises m2 ->
        api 2%nat = ApiReturns (PyStr reply) ->
        json_loads (extract_json_from_response (strip reply)) = Ok (PyDict o) ->
        o !! lit "prediction" = Some (PyStr p) ->
        p = lit "Realistic" \/ p = lit "Not Realistic" ->
        exists b : gmap str str,
          predict json_loads py_repr (Json (PyDict m)) api =
            ([ApiCall 0 prompt; Sleep 1; ApiCall 1 prompt; Sleep 2; ApiCall 2 prompt],
             Ok (Response b 200))
          /\ b !! lit "name" = Some name
          /\ b !! lit "prediction" = Some p)
    /\ (forall m1 m2 m3 : str,
          api 0%nat = ApiRaises m1 ->
          api 1%nat = ApiRaises m2 ->
          api 2%nat = ApiRaises m3 ->
          predict json_loads py_repr (Json (PyDict m)) api =
            ([ApiCall 0 prompt; Sleep 1; ApiCall 1 prompt; Sleep 2; ApiCall 2 prompt],
             Ok (Response (error_body (lit "OpenAI API error: " ++ m3)) 500))).
Proof.
  intros json_loads py_repr m s api Hm Hname name prompt. split.
  - intros m1 m2 reply o p H0 H1 H2 Hj Ho Hp.
    assert (Hv : valid_prediction (PyStr p) = true) by (destruct Hp as [-> | ->]; reflexivity).
    destruct (parse_reply_valid json_loads py_repr _ _ _ Hj Ho Hv) as [reason Hr].
    assert (Hfail : forall j, (j < 2)%nat -> retried json_loads py_repr (api j)).
    { apply raising_attempts_retried. intros [|[|j]] Hj'; [eauto | eauto | lia]. }
    pose proof (predict_break json_loads py_repr m s api 2 (Locals (PyStr p) None reason)
                  Hm Hname ltac:(unfold max_retries; lia) Hfail
                  (fun err => attempt_body_valid json_loads py_repr api _ 2 _ reply _ _ H2 Hr))
      as Hpred.
    rewrite Hpred. destruct Hp as [-> | ->].
    + rewrite final_response_realistic by reflexivity. eexists. split; [reflexivity|].
      split; [apply lookup_insert_eq|].
      rewrite lookup_insert_ne by discriminate. apply lookup_insert_eq.
    + rewrite final_response_not_realistic by reflexivity. eexists. split; [reflexivity|].
      split; [apply lookup_insert_eq|].
      rewrite lookup_insert_ne by discriminate. apply lookup_singleton_eq.
  - intros m1 m2 m3 H0 H1 H2.
    exact (predict_all_raise json_loads py_repr m s api m1 m2 m3 Hm Hname H0 H1 H2).
Qed.

Lemma retry_backoff_schedule_witness :
  let prompt := build_prompt (normalize_name (lit "  John   Doe ")) in
  (exists b : gmap str str,
      predict Demo.loads Demo.repr (Json (PyDict Demo.john)) (Demo.flaky Demo.fenced_reply) =
        ([ApiCall 0 prompt; Sleep 1; ApiCall 1 prompt; Sleep 2; ApiCall 2 prompt],
         Ok (Response b 200))
      /\ b !! lit "name" = Some (normalize_name (lit "  John   Doe "))
      /\ b !! lit "prediction" = Some (lit "Realistic"))
  /\ predict Demo.loads Demo.repr (Json (PyDict Demo.john)) Demo.down =
       ([ApiCall 0 prompt; Sleep 1; ApiCall 1 prompt; Sleep 2; ApiCall 2 prompt],
        Ok (Response (error_body (lit "OpenAI API error: " ++ lit "Connection error.")) 500)).
Proof.
  assert (Hname : normalize_name (lit "  John   Doe ") <> []) by (vm_compute; discriminate).
  split.
  - apply (proj1 (retry_backoff_schedule Demo.loads Demo.repr Demo.john
                    (lit "  John   Doe ") (Demo.flaky Demo.fenced_reply) eq_refl Hname)
             (lit "Connection error.") (lit "Connection error.") Demo.fenced_reply
             {[ lit "prediction" := PyStr (lit "Realistic") ]} (lit "Realistic"));
      try reflexivity.
    left; reflexivity.
  - apply (proj2 (retry_backoff_schedule Demo.loads Demo.repr Demo.john
                    (lit "  John   Doe ") Demo.down eq_refl Hname)
             (lit "Connection error.") (lit "Connection error.") (lit "Connection error."));
      reflexivity.
Defined.

(** An attempt whose reply the parser rejects with an exception that
    neither inner handler catches is retried. *)
Lemma unparsed_reply_retried (json_loads : str -> res pyval) (py_repr : pyval -> str)
    (outcome : api_outcome) (reply : str) (e : exn) :
  outcome = ApiReturns (PyStr reply) ->
  json_loads (extract_json_from_response (strip reply)) = Raise e ->
  exn_class_of e <> JSONDecodeError ->
  exn_class_of e <> ValueError ->
  forall st, attempt_try json_loads py_repr outcome st = Raise e.
Proof.
  intros -> Hj H1 H2 st. unfold attempt_try. cbn [py_strip bind].
  unfold parse_reply. rewrite Hj. destruct e as [[] msg]; cbn in H1, H2; congruence.
Qed.

(** C2 (amended) — take an attempt of the loop that is made and whose
    call returns a reply. When [json.loads] rejects the extracted text
    with a [JSONDecodeError], or parses it to an object whose [prediction]
    is not exactly ["Realistic"] or ["Not Realistic"], the loop ends
    there: no sleep and no further call follow, and the answer is 500
    with ["Invalid JSON response format from model"] in the first case and
    a message that names the offending value in the second. When
    [json.loads] raises a [ValueError] that is not a [JSONDecodeError],
    the loop ends there as well, but the message is the text of that
    error. When it raises any other [Exception], the attempt is handled
    like a failure of the API: before the last attempt it is followed by
    the backoff sleep and the next call, and at the last attempt the
    answer is the 500 of an API error. The two shape messages differ from
    each other, and the answers after the loop differ from those of an
    API error. *)
Theorem shape_failure_is_terminal :
  forall (json_loads : str -> res pyval) (py_repr : pyval -> str)
         (m : gmap str pyval) (s : str) (api : nat -> api_outcome)
         (k : nat) (reply : str),
    m !! lit "name" = Some (PyStr s) ->
    let prompt := build_prompt (normalize_name s) in
    let json_str_to_parse := extract_json_from_response (strip reply) in
    In (ApiCall k prompt) (fst (predict json_loads py_repr (Json (PyDict m)) api)) ->
    api k = ApiReturns (PyStr reply) ->
    (forall msg : str,
        json_loads json_str_to_parse = Raise (Exn JSONDecodeError msg) ->
        predict json_loads py_repr (Json (PyDict m)) api =
          (backoff prompt k ++ [ApiCall k prompt],
           Ok (Response
                 (error_body (lit "Failed to get prediction. Last error: "
                              ++ lit "Invalid JSON response format from model")) 500)))
    /\ (forall (o : gmap str pyval) (v : pyval),
          json_loads json_str_to_parse = Ok (PyDict o) ->
          v = match o !! lit "prediction" with Some x => x | None => PyNone end ->
          v <> PyStr (lit "Realistic") ->
          v <> PyStr (lit "Not Realistic") ->
          predict json_loads py_repr (Json (PyDict m)) api =
            (backoff prompt k ++ [ApiCall k prompt],
             Ok (Response
                   (error_body (lit "Failed to get prediction. Last error: "
                                ++ lit "Invalid prediction value from model: "
                                ++ py_str py_repr v)) 500)))
    /\ (forall ve : str,
          json_loads json_str_to_parse = Raise (Exn ValueError ve) ->
          predict json_loads py_repr (Json (PyDict m)) api =
            (backoff prompt k ++ [ApiCall k prompt],
             Ok (Response
                   (error_body (lit "Failed to get prediction. Last error: "
                                ++ or_unknown (Some ve))) 500)))
    /\ (forall e : exn,
          json_loads json_str_to_parse = Raise e ->
          is_exception (exn_class_of e) = true ->
          exn_class_of e <> JSONDecodeError ->
          exn_class_of e <> ValueError ->
          if (k <? max_retries - 1)%nat
          then exists evs : list event,
                 fst (predict json_loads py_repr (Json (PyDict m)) api) =
                   backoff prompt k
                     ++ [ApiCall k prompt; Sleep (2 ^ Z.of_nat k); ApiCall (S k) prompt]
                     ++ evs
          else predict json_loads py_repr (Json (PyDict m)) api =
                 (backoff prompt k ++ [ApiCall k prompt],
                  Ok (Response (error_body (lit "OpenAI API error: " ++ exn_str e)) 500)))
    /\ (forall x : str,
          lit "Invalid JSON response format from model"
          <> lit "Invalid prediction value from model: " ++ x)
    /\ (forall x y : str,
          lit "Failed to get prediction. Last error: " ++ x
          <> lit "OpenAI API error: " ++ y).
Proof.
  intros json_loads py_repr m s api k reply Hm prompt js Hin Hk'.
  destruct (predict_reached json_loads py_repr m s api k prompt Hm Hin)
    as (Hname & Hk & Hfail).
  split; [|split; [|split; [|split; [|split]]]].
  - intros msg Hj.
    rewrite (predict_break json_loads py_repr m s api k
               (Locals PyNone (Some (lit "Invalid JSON response format from model")) PyNone)
               Hm Hname Hk Hfail
               (fun err => attempt_body_undecodable json_loads py_repr api _ k _ reply msg
                             Hk' Hj)).
    reflexivity.
  - intros o v Hj Hv Hr Hn.
    assert (Hbad : valid_prediction v = false) by now apply valid_prediction_false.
    rewrite (predict_break json_loads py_repr m s api k
               (Locals PyNone
                  (Some (lit "Invalid prediction value from model: " ++ py_str py_repr v))
                  PyNone)
               Hm Hname Hk Hfail
               (fun err => attempt_body_invalid json_loads py_repr api _ k _ reply o v
                             Hk' Hj Hv Hbad)).
    reflexivity.
  - intros ve Hj.
    rewrite (predict_break json_loads py_repr m s api k (Locals PyNone (Some ve) PyNone)
               Hm Hname Hk Hfail
               (fun err => attempt_body_value_error json_loads py_repr api _ k _ reply ve
                             Hk' Hj)).
    reflexivity.
  - intros e Hj He H1 H2.
    pose proof (unparsed_reply_retried json_loads py_repr (api k) reply e Hk' Hj H1 H2)
      as Hraise.
    destruct (k <? max_retries - 1)%nat eqn:Ek.
    + apply Nat.ltb_lt in Ek.
      assert (Hfail' : forall j, (j < S k)%nat -> retried json_loads py_repr (api j)).
      { intros j Hj'. destruct (Nat.eq_dec j k) as [->|Hne]; [now exists e|].
        apply Hfail. lia. }
      destruct (retry_loop_failures json_loads py_repr api prompt (S k)
                  ltac:(unfold max_retries in *; lia) Hfail') as [err Hloop].
      rewrite (predict_named_trace _ _ _ _ _ Hm).
      apply nonempty_true_iff in Hname. rewrite Hname. fold prompt. rewrite Hloop.
      clear Hloop.
      replace (max_retries - S k)%nat with (S (max_retries - S k - 1)) by lia.
      cbn [seq].
      destruct (retry_loop_head json_loads py_repr api prompt (S k)
                  (seq (S (S k)) (max_retries - S k - 1)) (Locals PyNone err PyNone))
        as [evs Hevs].
      destruct (retry_loop json_loads py_repr api prompt _ _) as [evs' out'].
      cbn [fst] in Hevs |- *. subst evs'. exists evs.
      rewrite backoff_S, <- app_assoc. reflexivity.
    + apply Nat.ltb_ge in Ek.
      assert (k = 2%nat) as -> by (unfold max_retries in *; lia).
      destruct (Hfail 0%nat ltac:(lia)) as (e0 & He0 & H0).
      destruct (Hfail 1%nat ltac:(lia)) as (e1 & He1 & H1').
      exact (predict_all_fail json_loads py_repr m s api e0 e1 e Hm Hname He0 He1 He
               H0 H1' Hraise).
  - intros x. discriminate.
  - intros x y. discriminate.
Qed.

Lemma shape_failure_is_terminal_witness :
  let prompt := build_prompt (normalize_name (lit "  John   Doe ")) in
  predict Edge.loads_with_limits Demo.repr (Json (PyDict Demo.john))
    (Edge.stumbling Demo.padded_reply) =
    (backoff prompt 2 ++ [ApiCall 2 prompt],
     Ok (Response
           (error_body (lit "Failed to get prediction. Last error: "
                        ++ lit "Invalid JSON response format from model")) 500))
  /\ predict Edge.loads_with_limits Demo.repr (Json (PyDict Demo.john)) (Demo.up Demo.maybe_json) =
       (backoff prompt 0 ++ [ApiCall 0 prompt],
        Ok (Response
              (error_body (lit "Failed to get prediction. Last error: "
                           ++ lit "Invalid prediction value from model: "
                           ++ lit "maybe")) 500))
  /\ predict Edge.loads_with_limits Demo.repr (Json (PyDict Demo.john)) (Demo.up Edge.huge_int_reply) =
       (backoff prompt 0 ++ [ApiCall 0 prompt],
        Ok (Response
              (error_body (lit "Failed to get prediction. Last error: "
                           ++ or_unknown (Some (exn_str Edge.digit_limit_error)))) 500))
  /\ exists evs : list event,
       fst (predict Edge.loads_with_limits Demo.repr (Json (PyDict Demo.john))
              (Demo.up Edge.deep_reply)) =
         backoff prompt 0 ++ [ApiCall 0 prompt; Sleep 1; ApiCall 1 prompt] ++ evs.
Proof.
  split; [|split; [|split]].
  - refine (proj1 (shape_failure_is_terminal Edge.loads_with_limits Demo.repr Demo.john
                     (lit "  John   Doe ") (Edge.stumbling Demo.padded_reply) 2
                     Demo.padded_reply eq_refl _ eq_refl)
              (lit "Expecting value") _).
    + vm_compute. do 4 right. left. reflexivity.
    + vm_compute. reflexivity.
  - refine (proj1 (proj2 (shape_failure_is_terminal Edge.loads_with_limits Demo.repr Demo.john
                     (lit "  John   Doe ") (Demo.up Demo.maybe_json) 0 Demo.maybe_json
                     eq_refl _ eq_refl))
              {[ lit "prediction" := PyStr (lit "maybe") ]} (PyStr (lit "maybe"))
              _ eq_refl _ _).
    + vm_compute. left. reflexivity.
    + vm_compute. reflexivity.
    + discriminate.
    + discriminate.
  - refine (proj1 (proj2 (proj2 (shape_failure_is_terminal Edge.loads_with_limits Demo.repr Demo.john
                     (lit "  John   Doe ") (Demo.up Edge.huge_int_reply) 0
                     Edge.huge_int_reply eq_refl _ eq_refl)))
              (exn_str Edge.digit_limit_error) _).
    + vm_compute. left. reflexivity.
    + vm_compute. reflexivity.
  - refine (proj1 (proj2 (proj2 (proj2 (shape_failure_is_terminal Edge.loads_with_limits Demo.repr
                     Demo.john (lit "  John   Doe ") (Demo.up Edge.deep_reply) 0
                     Edge.deep_reply eq_refl _ eq_refl))))
              Edge.recursion_error _ eq_refl _ _).
    + vm_compute. left. reflexivity.
    + vm_compute. reflexivity.
    + discriminate.
    + discriminate.
Defined.

(** C2 as stated fails for texts that [json.loads] rejects otherwise than
    with a [JSONDecodeError]. The reply of 100000 opening brackets does
    not parse ([RecursionError]), yet the attempt is retried: two sleeps
    and two further calls follow, and the answer is the 500 of an API
    failure. The reply whose [prediction] is an integer of 4301 digits
    does not parse either ([ValueError]): the loop ends, but the message
    is neither ["Invalid JSON response format from model"] nor one that
    names a value. *)
Lemma parse_failure_not_terminal :
  let prompt := build_prompt (normalize_name (lit "  John   Doe ")) in
  Edge.loads_with_limits (extract_json_from_response (strip Edge.deep_reply)) =
    Raise Edge.recursion_error
  /\ predict Edge.loads_with_limits Demo.repr (Json (PyDict Demo.john)) (Demo.up Edge.deep_reply) =
       ([ApiCall 0 prompt; Sleep 1; ApiCall 1 prompt; Sleep 2; ApiCall 2 prompt],
        Ok (Response
              (error_body (lit "OpenAI API error: " ++ exn_str Edge.recursion_error)) 500))
  /\ Edge.loads_with_limits (extract_json_from_response (strip Edge.huge_int_reply)) =
       Raise Edge.digit_limit_error
  /\ predict Edge.loads_with_limits Demo.repr (Json (PyDict Demo.john)) (Demo.up Edge.huge_int_reply) =
       ([ApiCall 0 prompt],
        Ok (Response
              (error_body (lit "Failed to get prediction. Last error: "
                           ++ exn_str Edge.digit_limit_error)) 500)).
Proof. repeat split; vm_compute; reflexivity. Qed.

(** C4 — when the loop ends with a recognised prediction, the answer is
    200: for ["Realistic"] the body is exactly the name, the prediction
    and a [reason] that is one space; for ["Not Realistic"] it is exactly
    the name and the prediction, without a [reason] key, whatever reason
    the model gave. *)
Theorem success_response_shape :
  forall (json_loads : str -> res pyval) (py_repr : pyval -> str)
         (m : gmap str pyval) (s : str) (api : nat -> api_outcome)
         (evs : list event) (st : locals),
    m !! lit "name" = Some (PyStr s) ->
    normalize_name s <> [] ->
    retry_loop json_loads py_repr api (build_prompt (normalize_name s))
      (seq 0 max_retries) initial = (evs, Ok (inl st)) ->
    (prediction_result st = PyStr (lit "Realistic") ->
     predict json_loads py_repr (Json (PyDict m)) api =
       (evs, Ok (Response {[ lit "name" := normalize_name s;
                             lit "prediction" := lit "Realistic";
                             lit "reason" := lit " " ]} 200)))
    /\ (prediction_result st = PyStr (lit "Not Realistic") ->
        exists b : gmap str str,
          predict json_loads py_repr (Json (PyDict m)) api = (evs, Ok (Response b 200))
          /\ b = {[ lit "name" := normalize_name s;
                    lit "prediction" := lit "Not Realistic" ]}
          /\ b !! lit "reason" = None).
Proof.
  intros json_loads py_repr m s api evs st Hm Hname Hloop.
  assert (Hpred : predict json_loads py_repr (Json (PyDict m)) api =
                    (evs, Ok (final_response (normalize_name s) st))).
  { unfold predict. rewrite (predict_try_named _ _ _ _ _ Hm). cbv zeta.
    apply nonempty_true_iff in Hname. rewrite Hname. cbn [negb]. now rewrite Hloop. }
  split.
  - intros Hp. now rewrite Hpred, final_response_realistic.
  - intros Hp. eexists. split; [|split; [reflexivity|]].
    + now rewrite Hpred, final_response_not_realistic.
    + rewrite lookup_insert_ne by discriminate. now apply lookup_singleton_ne.
Qed.

Lemma success_response_shape_witness :
  let name := normalize_name (lit "  John   Doe ") in
  predict Demo.loads Demo.repr (Json (PyDict Demo.john)) (Demo.up Demo.realistic_json) =
    ([ApiCall 0 (build_prompt name)],
     Ok (Response {[ lit "name" := name;
                     lit "prediction" := lit "Realistic";
                     lit "reason" := lit " " ]} 200))
  /\ exists b : gmap str str,
       predict Demo.loads Demo.repr (Json (PyDict Demo.john))
         (Demo.up Demo.not_realistic_json) =
         ([ApiCall 0 (build_prompt name)], Ok (Response b 200))
       /\ b = {[ lit "name" := name; lit "prediction" := lit "Not Realistic" ]}
       /\ b !! lit "reason" = None.
Proof.
  assert (Hname : normalize_name (lit "  John   Doe ") <> []) by (vm_compute; discriminate).
  split.
  - exact (proj1 (success_response_shape Demo.loads Demo.repr Demo.john
                    (lit "  John   Doe ") (Demo.up Demo.realistic_json) _
                    (Locals (PyStr (lit "Realistic")) None PyNone)
                    eq_refl Hname eq_refl) eq_refl).
  - exact (proj2 (success_response_shape Demo.loads Demo.repr Demo.john
                    (lit "  John   Doe ") (Demo.up Demo.not_realistic_json) _
                    (Locals (PyStr (lit "Not Realistic")) None (PyStr (lit "too short")))
                    eq_refl Hname eq_refl) eq_refl).
Defined.

(** ** Properties of the request checks *)

(** C5 (amended) — when the body parses as a non-empty JSON object whose
    [name] is absent, or is a string that is empty once trimmed and
    collapsed, the answer is 400 with the error ["No name provided"], and
    the completion API is not called. *)
Theorem missing_name_rejected :
  forall (json_loads : str -> res pyval) (py_repr : pyval -> str)
         (m : gmap str pyval) (api : nat -> api_outcome),
    m <> ∅ ->
    m !! lit "name" = None
    \/ (exists s : str, m !! lit "name" = Some (PyStr s) /\ normalize_name s = []) ->
    predict json_loads py_repr (Json (PyDict m)) api =
      ([], Ok (Response (error_body (lit "No name provided")) 400)).
Proof.
  intros json_loads py_repr m api Hne [Hm | (s & Hm & Hs)]; unfold predict.
  - now rewrite predict_try_unnamed.
  - rewrite (predict_try_named _ _ _ _ _ Hm). cbv zeta. now rewrite Hs.
Qed.

Lemma missing_name_rejected_witness :
  predict Demo.loads Demo.repr
    (Json (PyDict {[ lit "title" := PyStr (lit "Dr") ]})) Demo.down =
    ([], Ok (Response (error_body (lit "No name provided")) 400))
  /\ predict Demo.loads Demo.repr
       (Json (PyDict {[ lit "name" := PyStr (lit "   ") ]})) Demo.down =
       ([], Ok (Response (error_body (lit "No name provided")) 400)).
Proof.
  split.
  - apply missing_name_rejected; [|left; reflexivity].
    intros H. apply (f_equal (fun d : gmap str pyval => d !! lit "title")) in H.
    vm_compute in H. discriminate H.
  - apply missing_name_rejected; [|right; exists (lit "   "); split; reflexivity].
    intros H. apply (f_equal (fun d : gmap str pyval => d !! lit "name")) in H.
    vm_compute in H. discriminate H.
Defined.

(** C5 as stated fails for the empty object [{}]: its [name] is absent,
    yet the handler takes the [not data] branch and answers with the
    error ["Invalid JSON payload"]. *)
Lemma empty_object_not_no_name :
  (∅ : gmap str pyval) !! lit "name" = None
  /\ predict Demo.loads Demo.repr (Json (PyDict ∅)) Demo.down =
       ([], Ok (Response (error_body (lit "Invalid JSON payload")) 400))
  /\ predict Demo.loads Demo.repr (Json (PyDict ∅)) Demo.down <>
       ([], Ok (Response (error_body (lit "No name provided")) 400)).
Proof.
  split; [reflexivity|]. split; [reflexivity|].
  intros H.
  apply (f_equal (fun out : list event * res response =>
                    match snd out with
                    | Ok r => body r !! lit "error"
                    | Raise _ => None
                    end)) in H.
  vm_compute in H. discriminate H.
Qed.

(** C6 — a request whose body is not valid JSON: [request.get_json()]
    raises, the catch-all of the handler turns that into a 500 with the
    generic message, and the 400 branch with ["Invalid JSON payload"] is
    only reached by bodies that do parse, to a value that is false in
    Python (here JSON [null]). No completion call is made. *)
Theorem malformed_body_gets_500 :
  forall (json_loads : str -> res pyval) (py_repr : pyval -> str)
         (api : nat -> api_outcome),
    predict json_loads py_repr NotJson api =
      ([], Ok (Response (error_body (lit "An unexpected server error occurred")) 500))
    /\ predict json_loads py_repr (Json PyNone) api =
         ([], Ok (Response (error_body (lit "Invalid JSON payload")) 400)).
Proof. intros. split; reflexivity. Qed.

(** C10 — when the body is a JSON object whose [name] is present but is
    not a string, [.strip()] raises inside the handler and the answer is
    500 with the generic message, not a 400; the completion API is not
    called. *)
Theorem non_string_name_gets_500 :
  forall (json_loads : str -> res pyval) (py_repr : pyval -> str)
         (m : gmap str pyval) (v : pyval) (api : nat -> api_outcome),
    m !! lit "name" = Some v ->
    (forall s : str, v <> PyStr s) ->
    predict json_loads py_repr (Json (PyDict m)) api =
      ([], Ok (Response (error_body (lit "An unexpected server error occurred")) 500))
    /\ (forall r : response,
          snd (predict json_loads py_repr (Json (PyDict m)) api) = Ok r ->
          status r <> 400%Z).
Proof.
  intros json_loads py_repr m v api Hm Hv.
  assert (H : predict json_loads py_repr (Json (PyDict m)) api = ([], Ok unexpected)).
  { unfold predict, predict_try. cbn [get_json].
    rewrite (truthy_dict_lookup _ _ _ Hm). cbn [negb py_get bind]. rewrite Hm.
    destruct v; try reflexivity. now destruct (Hv s). }
  split; [exact H|]. rewrite H. intros r [= <-]. discriminate.
Qed.

Lemma non_string_name_gets_500_witness :
  predict Demo.loads Demo.repr (Json (PyDict {[ lit "name" := PyInt 42 ]})) Demo.down =
    ([], Ok (Response (error_body (lit "An unexpected server error occurred")) 500))
  /\ predict Demo.loads Demo.repr
       (Json (PyDict {[ lit "name" := PyList [PyStr (lit "John")] ]})) Demo.down =
       ([], Ok (Response (error_body (lit "An unexpected server error occurred")) 500)).
Proof.
  split.
  - apply (non_string_name_gets_500 Demo.loads Demo.repr _ (PyInt 42));
      [reflexivity | discriminate].
  - apply (non_string_name_gets_500 Demo.loads Demo.repr _ (PyList [PyStr (lit "John")]));
      [reflexivity | discriminate].
Defined.

(** ** One response per request *)







(** * Further properties of the code *)

(** ** The normalizer (lines 45-46) *)

Lemma words_nil_iff s : words s = [] <-> Forall (fun c => isspace c = true) s.
Proof.
  induction s as [|c s IH]; [split; [constructor | reflexivity]|].
  destruct (isspace c) eqn:Ec.
  - rewrite words_cons_space by assumption. rewrite IH. split.
    + intros H. now constructor.
    + intros H. now inversion H.
  - split.
    + intros H. now apply words_nonspace_head_not_nil in H.
    + intros H. inversion H; congruence.
Qed.

(** X1 — the normalized name is empty exactly when the submitted string
    consists of whitespace only (the empty string included). *)
Theorem normalize_name_empty_iff (s : str) :
  normalize_name s = [] <-> Forall (fun c => isspace c = true) s.
Proof.
  rewrite normalize_name_spec, <- words_nil_iff. unfold spec_normalized. split.
  - apply join_nil_iff, words_all_nonempty.
  - now intros ->.
Qed.

Lemma visible_lstrip s : visible (lstrip s) = visible s.
Proof.
  induction s as [|c s IH]; [reflexivity|].
  simpl. destruct (isspace c) eqn:E; [exact IH|]. simpl. now rewrite E.
Qed.

Lemma visible_rstrip s : visible (rstrip s) = visible s.
Proof.
  induction s as [|c s IH]; [reflexivity|].
  change (visible (c :: s)) with (if negb (isspace c) then c :: visible s else visible s).
  destruct (isspace c) eqn:E.
  - rewrite rstrip_cons_space by assumption.
    destruct (rstrip s) as [|e r]; [exact IH|].
    unfold visible at 1. simpl. rewrite E. exact IH.
  - rewrite rstrip_cons_nonspace by assumption.
    unfold visible at 1. simpl. rewrite E. simpl. f_equal. exact IH.
Qed.

Lemma visible_sub_ws b s : visible (sub_ws_from b s) = visible s.
Proof.
  revert b. induction s as [|c s IH]; intros b; [reflexivity|].
  simpl. destruct (isspace c) eqn:E.
  - destruct b; [apply IH|]. unfold visible at 1. simpl. apply IH.
  - unfold visible at 1. simpl. rewrite E. simpl. f_equal. apply IH.
Qed.

(** X2 — normalization only touches whitespace: the code points that are
    not whitespace come out unchanged and in the same order, and the name
    never gets longer. *)
Theorem normalize_name_keeps_visible (s : str) :
  visible (normalize_name s) = visible s
  /\ (length (normalize_name s) <= length s)%nat.
Proof.
  split.
  - unfold normalize_name, strip, re_sub_ws.
    now rewrite visible_rstrip, visible_lstrip, visible_sub_ws, visible_rstrip, visible_lstrip.
  - unfold normalize_name, strip, re_sub_ws.
    assert (Hl : forall t, (length (lstrip t) <= length t)%nat).
    { induction t as [|c t IH]; simpl; [lia|]. destruct (isspace c); simpl; lia. }
    assert (Hr : forall t, (length (rstrip t) <= length t)%nat).
    { induction t as [|c t IH]; simpl; [lia|].
      destruct (rstrip t); [destruct (isspace c)|]; simpl in *; lia. }
    assert (Hs : forall b t, (length (sub_ws_from b t) <= length t)%nat).
    { intros b t. revert b. induction t as [|c t IH]; intros b; simpl; [lia|].
      destruct (isspace c); [destruct b|]; simpl;
        [specialize (IH true) | specialize (IH true) | specialize (IH false)]; lia. }
    pose proof (Hr (lstrip (sub_ws_from false (rstrip (lstrip s))))).
    pose proof (Hl (sub_ws_from false (rstrip (lstrip s)))).
    pose proof (Hs false (rstrip (lstrip s))).
    pose proof (Hr (lstrip s)). pose proof (Hl s). lia.
Qed.

Lemma rstrip_idem s : rstrip (rstrip s) = rstrip s.
Proof.
  induction s as [|c s IH]; [reflexivity|].
  simpl. destruct (rstrip s) as [|e r] eqn:Er.
  - destruct (isspace c) eqn:Ec; [reflexivity|]. simpl. now rewrite Ec.
  - change (rstrip (c :: e :: r)) with
      (match rstrip (e :: r) with [] => if isspace c then [] else [c] | r0 => c :: r0 end).
    now rewrite IH.
Qed.

Lemma join_head_nonspace (l : list str) :
  Forall (fun w => w <> []) l -> Forall ws_free l ->
  match join [32%N] l with [] => True | c :: _ => isspace c = false end.
Proof.
  intros Hne Hfree. destruct l as [|w l]; [exact I|].
  inversion Hne; inversion Hfree; subst.
  destruct w as [|c w]; [congruence|].
  rewrite join_cons_char. now inversion H5.
Qed.

Lemma lstrip_join (l : list str) :
  Forall (fun w => w <> []) l -> Forall ws_free l ->
  lstrip (join [32%N] l) = join [32%N] l.
Proof.
  intros Hne Hfree. pose proof (join_head_nonspace l Hne Hfree) as H.
  destruct (join [32%N] l); [reflexivity | now apply lstrip_head_nonspace].
Qed.

Lemma only_plain_space_join (l : list str) :
  Forall ws_free l -> Forall (fun c => isspace c = true -> c = 32%N) (join [32%N] l).
Proof.
  intros Hfree. induction Hfree as [|w l Hw _ IH]; [constructor|].
  assert (Hword : Forall (fun c => isspace c = true -> c = 32%N) w).
  { eapply Forall_impl; [exact Hw|]. cbn. intros c Hc Hc'. congruence. }
  destruct l as [|w' l]; [exact Hword|].
  change (join [32%N] (w :: w' :: l)) with (w ++ 32%N :: join [32%N] (w' :: l)).
  apply Forall_app. split; [exact Hword|]. constructor; [reflexivity | exact IH].
Qed.

Lemma no_adjacent_space_cons2 c d r :
  no_adjacent_space (c :: d :: r) =
    negb (isspace c && isspace d) && no_adjacent_space (d :: r).
Proof. reflexivity. Qed.

Lemma no_adjacent_space_word_app (w t : str) :
  ws_free w -> no_adjacent_space t = true -> no_adjacent_space (w ++ t) = true.
Proof.
  intros Hw Ht. induction Hw as [|c w Hc _ IH]; [exact Ht|].
  simpl app. destruct (w ++ t) as [|d r] eqn:E; [reflexivity|].
  rewrite no_adjacent_space_cons2, Hc. exact IH.
Qed.

Lemma no_adjacent_space_join (l : list str) :
  Forall (fun w => w <> []) l -> Forall ws_free l ->
  no_adjacent_space (join [32%N] l) = true.
Proof.
  induction l as [|w l IH]; intros Hne Hfree; [reflexivity|].
  inversion Hne; inversion Hfree; subst.
  destruct l as [|w' l].
  - simpl. rewrite <- (app_nil_r w). now apply no_adjacent_space_word_app.
  - change (join [32%N] (w :: w' :: l)) with (w ++ 32%N :: join [32%N] (w' :: l)).
    apply no_adjacent_space_word_app; [assumption|].
    pose proof (join_head_nonspace (w' :: l) H2 H6) as Hhead.
    specialize (IH H2 H6).
    destruct (join [32%N] (w' :: l)) as [|d r]; [reflexivity|].
    rewrite no_adjacent_space_cons2, Hhead, andb_false_r. exact IH.
Qed.

Lemma normal_form_normalize (s : str) : normal_form (normalize_name s).
Proof.
  unfold normal_form. split; [|split; [|split]].
  - rewrite normalize_name_spec. apply lstrip_join; [apply words_all_nonempty | apply words_ws_free].
  - unfold normalize_name, strip. apply rstrip_idem.
  - rewrite normalize_name_spec. apply only_plain_space_join, words_ws_free.
  - rewrite normalize_name_spec.
    apply no_adjacent_space_join; [apply words_all_nonempty | apply words_ws_free].
Qed.

(** X3 — a normalized name is in normal form: it has no whitespace at
    either end, its only whitespace is U+0020 (tabs, newlines and the other
    Unicode spaces are gone), and no two spaces are adjacent. *)
Theorem normalize_name_normal_form (s : str) : normal_form (normalize_name s).
Proof. apply normal_form_normalize. Qed.

Lemma sub_ws_normal (s : str) :
  Forall (fun c => isspace c = true -> c = 32%N) s ->
  no_adjacent_space s = true ->
  forall b, match s with [] => True | c :: _ => isspace c = true -> b = false end ->
  sub_ws_from b s = s.
Proof.
  induction s as [|c s IH]; intros Hplain Hadj b Hb; [reflexivity|].
  inversion Hplain as [|? ? Hc Hplain']; subst.
  simpl. destruct (isspace c) eqn:Ec.
  - rewrite (Hb eq_refl), (Hc eq_refl). f_equal.
    destruct s as [|d s]; [reflexivity|].
    rewrite no_adjacent_space_cons2, Ec in Hadj.
    apply andb_true_iff in Hadj. destruct Hadj as [Hd Hadj].
    apply negb_true_iff in Hd. cbn in Hd.
    apply IH; [assumption | assumption | congruence].
  - f_equal. destruct s as [|d s]; [reflexivity|].
    rewrite no_adjacent_space_cons2 in Hadj. apply andb_true_iff in Hadj.
    apply IH; [assumption | tauto | reflexivity].
Qed.

(** X4 — the names in normal form are exactly the fixed points of the
    normalizer: a name that is already clean goes through unchanged, and
    nothing else does. *)
Theorem normalize_name_fixed_point (s : str) : normalize_name s = s <-> normal_form s.
Proof.
  split.
  - intros H. rewrite <- H. apply normal_form_normalize.
  - intros (Hl & Hr & Hplain & Hadj). unfold normalize_name, strip, re_sub_ws.
    rewrite Hl, Hr. rewrite (sub_ws_normal s Hplain Hadj false); [now rewrite Hl, Hr|].
    destruct s; [exact I | reflexivity].
Qed.

(** ** The extraction (lines 27-35) *)

Lemma lstrip_head s :
  match lstrip s with [] => True | c :: _ => isspace c = false end.
Proof.
  induction s as [|c s IH]; [exact I|].
  simpl. destruct (isspace c) eqn:E; [exact IH | exact E].
Qed.

Lemma lstrip_idem s : lstrip (lstrip s) = lstrip s.
Proof.
  pose proof (lstrip_head s) as H.
  destruct (lstrip s); [reflexivity | now apply lstrip_head_nonspace].
Qed.

Lemma lstrip_rstrip_lstrip s : lstrip (rstrip (lstrip s)) = rstrip (lstrip s).
Proof.
  pose proof (lstrip_head s) as H.
  destruct (lstrip s) as [|c u]; [reflexivity|].
  rewrite rstrip_cons_nonspace by assumption. now apply lstrip_head_nonspace.
Qed.

Lemma strip_idem s : strip (strip s) = strip s.
Proof. unfold strip. now rewrite lstrip_rstrip_lstrip, rstrip_idem. Qed.

Lemma rstrip_snoc_nonspace (x : str) c : isspace c = false -> rstrip (x ++ [c]) = x ++ [c].
Proof.
  intros Hc. induction x as [|d x IH]; simpl; [now rewrite Hc|].
  rewrite IH. destruct (x ++ [c]) eqn:E; [|reflexivity].
  now destruct x.
Qed.

Lemma strip_braced (inner : str) :
  strip (Re.lbrace :: inner ++ [Re.rbrace]) = Re.lbrace :: inner ++ [Re.rbrace].
Proof.
  unfold strip. rewrite lstrip_head_nonspace by reflexivity.
  change (Re.lbrace :: inner ++ [Re.rbrace]) with ((Re.lbrace :: inner) ++ [Re.rbrace]).
  now apply rstrip_snoc_nonspace.
Qed.

Lemma lstrip_suffix s : exists a, s = a ++ lstrip s.
Proof.
  induction s as [|c s [a IH]]; [now exists []|].
  simpl. destruct (isspace c).
  - exists (c :: a). simpl. now f_equal.
  - now exists [].
Qed.

Lemma rstrip_prefix s : exists b, s = rstrip s ++ b.
Proof.
  induction s as [|c s [b IH]]; [now exists []|].
  simpl. destruct (rstrip s) as [|e r] eqn:E.
  - destruct (isspace c).
    + exists (c :: s). reflexivity.
    + exists s. reflexivity.
  - exists b. simpl. now f_equal.
Qed.

Lemma contains_fenced_block_infix a s b g :
  Re.contains_fenced_block s g -> Re.contains_fenced_block (a ++ s ++ b) g.
Proof.
  intros (pre & blk & post & -> & H).
  exists (a ++ pre), blk, (post ++ b). split; [|exact H].
  now rewrite <- !app_assoc.
Qed.

Lemma search_strip_none s : Re.search s = None -> Re.search (strip s) = None.
Proof.
  rewrite !search_none_iff. intros H g Hg.
  destruct (lstrip_suffix s) as [a Ha], (rstrip_prefix (lstrip s)) as [b Hb].
  apply (H g). rewrite Ha, Hb. now apply contains_fenced_block_infix.
Qed.

(** The lazy quantifier stops at the first place where its continuation
    succeeds. *)
Lemma dot_star_lazy_minimal {A : Type} (acc s : str) (k : str -> str -> option A) r :
  Re.dot_star_lazy acc s k = Some r ->
  exists b rest,
    s = b ++ rest /\ k (acc ++ b) rest = Some r
    /\ forall b1 b2, b = b1 ++ b2 -> b2 <> [] -> k (acc ++ b1) (b2 ++ rest) = None.
Proof.
  revert acc. induction s as [|c s IH]; intros acc; simpl.
  - destruct (k acc []) eqn:E; [|discriminate].
    intros [= <-]. exists [], []. split; [reflexivity|]. split; [now rewrite app_nil_r|].
    intros b1 b2 Hb Hb2. symmetry in Hb. apply app_eq_nil in Hb. tauto.
  - destruct (k acc (c :: s)) eqn:E.
    + intros [= <-]. exists [], (c :: s). split; [reflexivity|].
      split; [now rewrite app_nil_r|].
      intros b1 b2 Hb Hb2. symmetry in Hb. apply app_eq_nil in Hb. tauto.
    + intros H. destruct (IH _ H) as (b & rest & -> & Hk & Hmin).
      exists (c :: b), rest. split; [reflexivity|].
      split; [now rewrite <- app_assoc in Hk|].
      intros b1 b2 Hb Hb2. destruct b1 as [|c1 b1].
      * simpl in Hb. subst b2. now rewrite app_nil_r.
      * injection Hb as <- Hb. specialize (Hmin b1 b2 Hb Hb2).
        now rewrite <- app_assoc in Hmin.
Qed.

Lemma all_space_span (ws ws' : str) c c' x x' :
  Re.all_space ws -> Re.all_space ws' ->
  isspace c = false -> isspace c' = false ->
  ws ++ c :: x = ws' ++ c' :: x' -> ws = ws' /\ c = c' /\ x = x'.
Proof.
  intros Hws. revert ws'. induction Hws as [|d ws Hd _ IH]; intros ws' Hws' Hc Hc' E.
  - destruct Hws' as [|d' ws' Hd' _]; simpl in E.
    + now injection E as -> ->.
    + injection E as -> _. congruence.
  - destruct Hws' as [|d' ws' Hd' Hws']; simpl in E.
    + injection E as -> _. congruence.
    + injection E as -> E. destruct (IH ws' Hws' Hc Hc' E) as (-> & -> & ->). auto.
Qed.

Lemma opens_fence_length f : Re.opens_fence f -> length f = 7%nat.
Proof. intros H. apply Forall2_length in H. now rewrite <- H. Qed.

Lemma opens_fence_head f : Re.opens_fence f -> exists f', f = 96%N :: f'.
Proof.
  unfold Re.opens_fence, Re.open_fence. intros H.
  inversion H as [|p c ps f' Hc _]; subst.
  unfold Re.ci_accepts in Hc. simpl in Hc. rewrite orb_false_r in Hc.
  apply N.eqb_eq in Hc. subst. eauto.
Qed.

(** The match at a given start, read back as a decomposition of the text,
    with the fact that the closing brace is the first one that whitespace
    and the closing fence follow. *)
Lemma match_here_inv s g :
  Re.match_here s = Some g ->
  exists f ws1 inner ws2 post,
    s = f ++ ws1 ++ Re.lbrace :: inner ++ Re.rbrace :: ws2 ++ Re.close_fence ++ post
    /\ g = Re.lbrace :: inner ++ [Re.rbrace]
    /\ Re.opens_fence f /\ Re.all_space ws1 /\ Re.all_space ws2
    /\ forall b1 ws2' post',
         inner ++ Re.rbrace :: ws2 ++ Re.close_fence ++ post =
           b1 ++ Re.rbrace :: ws2' ++ Re.close_fence ++ post' ->
         Re.all_space ws2' -> (length inner <= length b1)%nat.
Proof.
  unfold Re.match_here. intros H.
  destruct (Re.literal_ci Re.open_fence s) as [r0|] eqn:E0; [|discriminate].
  apply literal_ci_sound in E0. destruct E0 as (f & -> & Hf).
  apply star_greedy_sound in H. destruct H as (ws1 & r1 & -> & Hws1 & H).
  destruct r1 as [|c r2]; [discriminate|].
  destruct (c =? Re.lbrace)%N eqn:Ec; [|discriminate]. apply N.eqb_eq in Ec. subst c.
  apply dot_star_lazy_minimal in H. destruct H as (inner & r3 & -> & H & Hmin).
  destruct r3 as [|d r4]; [discriminate|].
  destruct (d =? Re.rbrace)%N eqn:Ed; [|discriminate]. apply N.eqb_eq in Ed. subst d.
  apply star_greedy_sound in H. destruct H as (ws2 & r5 & -> & Hws2 & H).
  destruct (Re.literal_ci Re.close_fence r5) as [post|] eqn:E5; [|discriminate].
  injection H as <-.
  apply literal_ci_sound in E5. destruct E5 as (f' & -> & Hf').
  apply close_fence_exact in Hf'. subst f'.
  exists f, ws1, inner, ws2, post. repeat split; try assumption.
  intros b1 ws2' post' E Hws2'.
  destruct (Nat.le_gt_cases (length inner) (length b1)) as [Hle|Hlt]; [exact Hle|].
  exfalso.
  assert (Hsplit : exists b2, inner = b1 ++ b2 /\ b2 <> []).
  { exists (drop (length b1) inner). split.
    - rewrite <- (take_drop (length b1) inner) at 1. f_equal.
      apply (f_equal (take (length b1))) in E.
      rewrite take_app_le in E by lia. rewrite take_app_length in E. exact E.
    - intros Hnil. apply (f_equal length) in Hnil. rewrite length_drop in Hnil.
      simpl in Hnil. lia. }
  destruct Hsplit as (b2 & -> & Hb2).
  specialize (Hmin b1 b2 eq_refl Hb2). cbv beta in Hmin.
  change ([] ++ b1) with b1 in Hmin.
  rewrite <- app_assoc in E. apply app_inv_head in E. rewrite E in Hmin.
  cbv beta iota in Hmin. rewrite N.eqb_refl in Hmin.
  pose proof (star_greedy_complete isspace ws2' (Re.close_fence ++ post')
                (fun r5 => match Re.literal_ci Re.close_fence r5 with
                           | Some _ => Some (Re.lbrace :: b1 ++ [Re.rbrace])
                           | None => None
                           end) Hws2') as Hc.
  cbv beta in Hc. rewrite (literal_ci_complete _ _ _ close_fence_accepts) in Hc.
  destruct (Hc ltac:(eauto)) as [x Hx]. congruence.
Qed.

Lemma search_leftmost s g :
  Re.search s = Some g ->
  exists pre rest,
    s = pre ++ rest /\ Re.match_here rest = Some g
    /\ forall p1 p2, pre = p1 ++ p2 -> p2 <> [] -> Re.match_here (p2 ++ rest) = None.
Proof.
  induction s as [|c s IH]; [discriminate|].
  rewrite search_unfold. destruct (Re.match_here (c :: s)) as [g'|] eqn:E.
  - intros [= <-]. exists [], (c :: s). split; [reflexivity|]. split; [exact E|].
    intros p1 p2 Hp Hp2. symmetry in Hp. apply app_eq_nil in Hp. tauto.
  - intros H. destruct (IH H) as (pre & rest & -> & Hm & Hmin).
    exists (c :: pre), rest. split; [reflexivity|]. split; [exact Hm|].
    intros p1 p2 Hp Hp2. destruct p1 as [|c1 p1].
    + simpl in Hp. subst p2. exact E.
    + injection Hp as <- Hp. exact (Hmin p1 p2 Hp Hp2).
Qed.

Lemma app_split_longer {A : Type} (a b x y : list A) :
  a ++ x = b ++ y -> (length a < length b)%nat ->
  exists c, b = a ++ c /\ c <> [] /\ x = c ++ y.
Proof.
  intros E Hlt. exists (drop (length a) b).
  assert (Hb : b = a ++ drop (length a) b).
  { rewrite <- (take_drop (length a) b) at 1. f_equal.
    apply (f_equal (take (length a))) in E.
    rewrite take_app_length in E. rewrite take_app_le in E by lia. now symmetry. }
  split; [exact Hb|]. split.
  - intros Hnil. apply (f_equal length) in Hnil. rewrite length_drop in Hnil.
    simpl in Hnil. lia.
  - rewrite Hb in E at 1. rewrite <- app_assoc in E. now apply app_inv_head in E.
Qed.

Lemma match_here_shortest rest g blk post braced :
  Re.match_here rest = Some g -> rest = blk ++ post -> Re.fenced_block blk braced ->
  (length g <= length braced)%nat.
Proof.
  intros Hm Hrest (f' & ws1' & inner' & ws2' & -> & -> & Hf' & Hws1' & Hws2').
  destruct (match_here_inv _ _ Hm)
    as (f & ws1 & inner & ws2 & post0 & E & -> & Hf & Hws1 & Hws2 & Hmin).
  rewrite Hrest in E. rewrite <- !app_assoc in E.
  apply app_inj_1 in E; [|now rewrite (opens_fence_length _ Hf), (opens_fence_length _ Hf')].
  destruct E as [_ E]. simpl in E.
  apply all_space_span in E; try assumption; try reflexivity.
  destruct E as (_ & _ & E). rewrite <- !app_assoc in E. simpl in E. symmetry in E.
  specialize (Hmin inner' ws2' post E Hws2').
  simpl. rewrite !length_app. simpl. lia.
Qed.

(** X5 — when the text contains fenced blocks, the content returned is
    that of the first one: no block starts earlier, and of the blocks that
    start where it starts it has the shortest braced content (the first
    closing brace that whitespace and the closing fence follow). *)
Theorem extract_first_shortest_block (text pre blk post braced : str) :
  text = pre ++ blk ++ post ->
  Re.fenced_block blk braced ->
  exists pre0 blk0 post0,
    text = pre0 ++ blk0 ++ post0
    /\ Re.fenced_block blk0 (extract_json_from_response text)
    /\ (length pre0 <= length pre)%nat
    /\ (length pre0 = length pre ->
        (length (extract_json_from_response text) <= length braced)%nat).
Proof.
  intros Htext Hblk.
  assert (Hc : Re.contains_fenced_block text braced) by (exists pre, blk, post; auto).
  destruct (search_complete _ _ Hc) as [g Hg].
  rewrite (extract_fenced _ _ Hg).
  destruct (search_leftmost _ _ Hg) as (pre0 & rest & Hsplit & Hm & Hmin).
  destruct (match_here_sound _ _ Hm) as (blk0 & post0 & Hrest & Hblk0).
  exists pre0, blk0, post0. split; [now rewrite Hsplit, Hrest|]. split; [exact Hblk0|].
  assert (Hle : (length pre0 <= length pre)%nat).
  { destruct (Nat.le_gt_cases (length pre0) (length pre)) as [H|H]; [exact H|]. exfalso.
    rewrite Hsplit in Htext. symmetry in Htext.
    destruct (app_split_longer _ _ _ _ Htext H) as (p2 & Hp & Hp2 & Hbp).
    specialize (Hmin pre p2 Hp Hp2).
    destruct (match_here_complete blk post braced Hblk) as [x Hx].
    rewrite Hbp in Hx. congruence. }
  split; [exact Hle|]. intros Heq.
  rewrite Hsplit in Htext. apply app_inj_1 in Htext; [|exact Heq].
  destruct Htext as [_ Hr].
  exact (match_here_shortest rest g blk post braced Hm Hr Hblk).
Qed.

Lemma extract_first_shortest_block_witness :
  exists pre0 blk0 post0,
    Demo.fenced_reply = pre0 ++ blk0 ++ post0
    /\ Re.fenced_block blk0 (extract_json_from_response Demo.fenced_reply)
    /\ (length pre0 <= 0)%nat
    /\ (length pre0 = 0%nat ->
        (length (extract_json_from_response Demo.fenced_reply)
         <= length Demo.realistic_json)%nat).
Proof.
  apply (extract_first_shortest_block Demo.fenced_reply [] Demo.fenced_reply []
           Demo.realistic_json).
  - reflexivity.
  - exists Re.open_fence, [32%N], (Demo.member "prediction" "Realistic"), [32%N].
    repeat split; try reflexivity; repeat constructor.
Defined.

(** The content of a match holds no fenced block of its own. *)
Lemma match_here_result_unfenced s g : Re.match_here s = Some g -> Re.search g = None.
Proof.
  intros Hm. apply search_none_iff. intros b (pre & blk & post' & Hg & Hblk).
  destruct (match_here_inv _ _ Hm)
    as (f & ws1 & inner & ws2 & post & _ & -> & _ & _ & Hws2 & Hmin).
  destruct Hblk as (f' & ws1' & inner' & ws2' & -> & -> & Hf' & Hws1' & Hws2').
  destruct (opens_fence_head _ Hf') as [f'' ->].
  destruct pre as [|p pre']; [discriminate Hg|].
  injection Hg as _ Hg.
  induction post' as [|x post'' _] using rev_ind.
  - assert (Hg' : inner ++ [Re.rbrace] =
                  (pre' ++ (96%N :: f'') ++ ws1' ++ Re.lbrace :: inner' ++ Re.rbrace
                     :: ws2' ++ [96; 96]%N) ++ [96%N]).
    { rewrite Hg. unfold Re.close_fence. rewrite app_nil_r.
      repeat (rewrite <- ?app_assoc; simpl). reflexivity. }
    apply app_inj_tail in Hg'. destruct Hg' as [_ Hg']. discriminate Hg'.
  - assert (Hg' : inner ++ [Re.rbrace] =
                  (pre' ++ (96%N :: f'') ++ ws1' ++ Re.lbrace :: inner' ++ Re.rbrace
                     :: ws2' ++ Re.close_fence ++ post'') ++ [x]).
    { rewrite Hg. repeat (rewrite <- ?app_assoc; simpl). reflexivity. }
    apply app_inj_tail in Hg'. destruct Hg' as [Hinner _].
    assert (E : inner ++ Re.rbrace :: ws2 ++ Re.close_fence ++ post =
                (pre' ++ (96%N :: f'') ++ ws1' ++ Re.lbrace :: inner')
                  ++ Re.rbrace :: ws2' ++ Re.close_fence
                  ++ (post'' ++ Re.rbrace :: ws2 ++ Re.close_fence ++ post)).
    { rewrite Hinner. repeat (rewrite <- ?app_assoc; simpl). reflexivity. }
    specialize (Hmin _ _ _ E Hws2').
    rewrite Hinner in Hmin. rewrite !length_app in Hmin. simpl in Hmin.
    rewrite !length_app in Hmin. simpl in Hmin. lia.
Qed.

(** X6 — extracting twice is the same as extracting once: what the
    function returns holds no further fenced block and nothing to trim. *)
Theorem extract_json_idempotent (text : str) :
  extract_json_from_response (extract_json_from_response text) =
    extract_json_from_response text.
Proof.
  destruct (Re.search text) as [g|] eqn:E.
  - rewrite (extract_fenced _ _ E).
    destruct (search_leftmost _ _ E) as (pre & rest & _ & Hm & _).
    rewrite (extract_unfenced _ (match_here_result_unfenced _ _ Hm)).
    destruct (match_here_inv _ _ Hm) as (f & ws1 & inner & ws2 & post & _ & -> & _).
    apply strip_braced.
  - rewrite (extract_unfenced _ E).
    rewrite (extract_unfenced _ (search_strip_none _ E)). apply strip_idem.
Qed.

(** X7 — the result never has whitespace at either end, whichever return
    statement produced it. *)
Theorem extract_json_trimmed (text : str) :
  strip (extract_json_from_response text) = extract_json_from_response text.
Proof.
  destruct (Re.search text) as [g|] eqn:E.
  - rewrite (extract_fenced _ _ E).
    destruct (search_leftmost _ _ E) as (pre & rest & _ & Hm & _).
    destruct (match_here_inv _ _ Hm) as (f & ws1 & inner & ws2 & post & _ & -> & _).
    apply strip_braced.
  - rewrite (extract_unfenced _ E). apply strip_idem.
Qed.

Lemma fenced_block_has_backtick s g : Re.contains_fenced_block s g -> In 96%N s.
Proof.
  intros (pre & blk & post & -> & f & ws1 & inner & ws2 & -> & _).
  apply in_or_app. right. apply in_or_app. left.
  apply in_or_app. right. apply in_or_app. right.
  apply in_or_app. right. apply in_or_app. right. now left.
Qed.

(** X8 — a text without a backtick is only trimmed; in particular a bare
    JSON object without surrounding whitespace is returned as it is. *)
Theorem extract_json_without_backtick (text : str) :
  ~ In 96%N text ->
  extract_json_from_response text = strip text
  /\ (strip text = text -> extract_json_from_response text = text).
Proof.
  intros H.
  assert (E : extract_json_from_response text = strip text).
  { apply extract_unfenced, search_none_iff. intros g Hg.
    now apply H, (fenced_block_has_backtick _ g). }
  split; [exact E | intros Hs; now rewrite E].
Qed.

Lemma extract_json_without_backtick_witness :
  extract_json_from_response Demo.not_realistic_json = strip Demo.not_realistic_json
  /\ extract_json_from_response Demo.not_realistic_json = Demo.not_realistic_json.
Proof.
  assert (H : ~ In 96%N Demo.not_realistic_json).
  { intros H. vm_compute in H. repeat (destruct H as [H|H]; [discriminate H|]). exact H. }
  split.
  - exact (proj1 (extract_json_without_backtick Demo.not_realistic_json H)).
  - exact (proj2 (extract_json_without_backtick Demo.not_realistic_json H) eq_refl).
Defined.

(** ** The prompt (lines 56-76) *)

Lemma build_prompt_frame :
  exists head tail : str,
    head = take 74 (build_prompt []) /\ tail = drop 74 (build_prompt [])
    /\ forall name, build_prompt name = head ++ name ++ tail.
Proof.
  eexists. eexists. split; [reflexivity|]. split; [reflexivity|].
  intros name. unfold build_prompt. cbn [join]. rewrite <- !app_assoc, app_nil_l.
  rewrite (app_assoc [nl]).
  f_equal; try (vm_compute; reflexivity); f_equal; vm_compute; reflexivity.
Qed.

(** X9 — the prompt is a fixed text around the name, which it embeds
    verbatim and once: two names give the same prompt only when they are
    equal, and the prompt is 1171 code points longer than the name. *)
Theorem build_prompt_embeds_name :
  (exists head tail : str, forall name, build_prompt name = head ++ name ++ tail)
  /\ (forall n1 n2, build_prompt n1 = build_prompt n2 -> n1 = n2)
  /\ (forall name, length (build_prompt name) = (1171 + length name)%nat).
Proof.
  destruct build_prompt_frame as (head & tail & Hh & Ht & H).
  split; [now exists head, tail|]. split.
  - intros n1 n2 E. rewrite !H in E. apply app_inv_head in E. now apply app_inv_tail in E.
  - intros name. rewrite H, !length_app, Hh, Ht. vm_compute length at 1.
    rewrite Nat.add_comm. vm_compute (length (drop 74 (build_prompt []))). lia.
Qed.

(** ** The handler (lines 38-159) *)


Section Endpoint.
Variable json_loads : str -> res pyval.
Variable py_repr : pyval -> str.

(** What the loop does to the outside world: some attempts that fail and
    are followed by their backoff, then one last call. *)
Lemma retry_loop_trace api prompt st evs out :
  retry_loop json_loads py_repr api prompt (seq 0 max_retries) st = (evs, out) ->
  exists k, (k < max_retries)%nat /\ evs = backoff prompt k ++ [ApiCall k prompt].
Proof.
  unfold max_retries. change (seq 0 3) with [0; 1; 2]%nat.
  rewrite retry_loop_cons.
  destruct (attempt_body_cases json_loads py_repr api prompt 0 st)
    as [[st0 ->] | [[_ [st0 ->]] | [[H _] | (e & _ & ->)]]];
    [intros [= <- _]; exists 0%nat; split; [lia | reflexivity]
    |
    | unfold max_retries in H; lia
    | intros [= <- _]; exists 0%nat; split; [lia | reflexivity]].
  rewrite retry_loop_cons.
  destruct (attempt_body_cases json_loads py_repr api prompt 1 st0)
    as [[st1 ->] | [[_ [st1 ->]] | [[H _] | (e & _ & ->)]]];
    [intros [= <- _]; exists 1%nat; split; [lia | reflexivity]
    |
    | unfold max_retries in H; lia
    | intros [= <- _]; exists 1%nat; split; [lia | reflexivity]].
  rewrite retry_loop_cons.
  destruct (attempt_body_cases json_loads py_repr api prompt 2 st1)
    as [[st2 ->] | [[H _] | [[_ [msg ->]] | (e & _ & ->)]]];
    [intros [= <- _]; exists 2%nat; split; [lia | reflexivity]
    | unfold max_retries in H; lia
    | intros [= <- _]; exists 2%nat; split; [lia | reflexivity]
    | intros [= <- _]; exists 2%nat; split; [lia | reflexivity]].
Qed.

Lemma non_string_name_helper (m : gmap str pyval) (v : pyval) (api : nat -> api_outcome) :
  m !! lit "name" = Some v -> (forall s : str, v <> PyStr s) ->
  predict json_loads py_repr (Json (PyDict m)) api = ([], Ok unexpected).
Proof.
  intros Hm Hv. unfold predict, predict_try. cbn [get_json].
  rewrite (truthy_dict_lookup _ _ _ Hm). cbn [negb py_get bind]. rewrite Hm.
  destruct v; try reflexivity. now destruct (Hv s).
Qed.

(** The catch-all has nothing to catch after the loop: what leaves the
    loop is not an [Exception]. *)
Lemma predict_after_loop (m : gmap str pyval) (s : str) (api : nat -> api_outcome) :
  m !! lit "name" = Some (PyStr s) ->
  normalize_name s <> [] ->
  predict json_loads py_repr (Json (PyDict m)) api =
    after_loop (normalize_name s)
      (retry_loop json_loads py_repr api (build_prompt (normalize_name s))
         (seq 0 max_retries) initial).
Proof.
  intros Hm Hn. unfold predict. rewrite (predict_try_named _ _ _ _ _ Hm). cbv zeta.
  apply nonempty_true_iff in Hn. rewrite Hn. cbn [negb].
  destruct (retry_loop json_loads py_repr api _ _ _) as [evs [[st|r]|e]] eqn:E;
    [reflexivity | reflexivity |].
  cbn [after_loop]. now rewrite (retry_loop_raises _ _ _ _ _ _ _ _ E).
Qed.

(** The handler body up to the loop, by cases on the request. *)
Lemma predict_cases req api :
  (predict json_loads py_repr req api = ([], Ok unexpected)
   /\ (req = NotJson
       \/ (exists data, req = Json data /\ truthy data = true /\ forall m, data <> PyDict m)
       \/ (exists (m : gmap str pyval) v,
              req = Json (PyDict m) /\ m !! lit "name" = Some v /\ forall s, v <> PyStr s)))
  \/ (predict json_loads py_repr req api =
        ([], Ok (Response (error_body (lit "Invalid JSON payload")) 400))
      /\ exists data, req = Json data /\ truthy data = false)
  \/ (predict json_loads py_repr req api =
        ([], Ok (Response (error_body (lit "No name provided")) 400))
      /\ exists m : gmap str pyval,
           req = Json (PyDict m) /\ m <> ∅
           /\ (m !! lit "name" = None
               \/ exists s, m !! lit "name" = Some (PyStr s) /\ normalize_name s = []))
  \/ (exists (m : gmap str pyval) (s : str),
         req = Json (PyDict m) /\ m !! lit "name" = Some (PyStr s)
         /\ normalize_name s <> []
         /\ predict json_loads py_repr req api =
              after_loop (normalize_name s)
                (retry_loop json_loads py_repr api (build_prompt (normalize_name s))
                   (seq 0 max_retries) initial)).
Proof.
  destruct req as [|data]; [left; split; [reflexivity | now left]|].
  destruct (truthy data) eqn:Ht.
  2:{ right. left. split; [|eauto]. unfold predict, predict_try. cbn [get_json].
      now rewrite Ht. }
  assert (Hnd : (forall m, data <> PyDict m) ->
                predict json_loads py_repr (Json data) api = ([], Ok unexpected)).
  { intros Hd. unfold predict, predict_try. cbn [get_json]. rewrite Ht. cbn [negb].
    destruct data; try reflexivity. now destruct (Hd m). }
  destruct data as [|b|z|f|s0|l|m];
    try (left; split;
         [apply Hnd; discriminate
         | right; left; eexists; split; [reflexivity|]; split; [exact Ht | discriminate]]).
  assert (Hm : m <> ∅).
  { intros ->. cbn in Ht. now rewrite bool_decide_eq_true_2 in Ht. }
  destruct (m !! lit "name") as [v|] eqn:Hv.
  - destruct v as [|b|z|f|s|l|m'];
      try (left; split;
           [apply (non_string_name_helper _ _ _ Hv); discriminate
           | right; right; exists m; eexists; split; [reflexivity|];
             split; [exact Hv | discriminate]]).
    destruct (normalize_name s) as [|c n] eqn:Hn.
    + right. right. left. split.
      * unfold predict. rewrite (predict_try_named _ _ _ _ _ Hv). cbv zeta. now rewrite Hn.
      * exists m. repeat split; eauto.
    + right. right. right. exists m, s. repeat split; [exact Hv | rewrite Hn; discriminate|].
      apply (predict_after_loop _ _ _ Hv). rewrite Hn. discriminate.
  - right. right. left. split.
    + unfold predict. now rewrite predict_try_unnamed.
    + exists m. repeat split; eauto.
Qed.

Lemma slept_backoff prompt k :
  (k < max_retries)%nat ->
  slept (backoff prompt k ++ [ApiCall k prompt]) = (2 ^ Z.of_nat k - 1)%Z.
Proof.
  unfold max_retries. intros Hk.
  destruct k as [|[|[|k]]]; [reflexivity | reflexivity | reflexivity | lia].
Qed.

Lemma loop_status api prompt name :
  let out := after_loop name
               (retry_loop json_loads py_repr api prompt (seq 0 max_retries) initial) in
  fst out <> []
  /\ forall r, snd out = Ok r -> status r = 200%Z \/ status r = 500%Z.
Proof.
  cbv zeta.
  destruct (retry_loop json_loads py_repr api prompt _ _) as [evs [[st|r]|e]] eqn:E;
    cbn [after_loop fst snd]; (split;
      [destruct (retry_loop_trace _ _ _ _ _ E) as (k & _ & ->); now destruct (backoff prompt k)|]).
  - intros r [= <-].
    destruct (final_response_shape name st) as [[H _] | [H _]]; auto.
  - intros r' [= <-].
    destruct (retry_loop_returns_500 _ _ _ _ _ _ _ _ E) as [H _]. auto.
  - discriminate.
Qed.

(** X10 — whatever the request and whatever the API does, the effects of
    the handler are either none at all, or [k] failed calls each followed
    by its backoff of [2 ** attempt] seconds and then one last call, with
    [k] at most 2 and always the same prompt, built from a non-empty name
    in normal form. The handler therefore never ends on a sleep and never
    sleeps more than 3 seconds in total. *)
Theorem predict_trace_shape (req : request_body) (api : nat -> api_outcome) :
  (fst (predict json_loads py_repr req api) = []
   \/ exists (name : str) (k : nat),
        (k < max_retries)%nat /\ name <> [] /\ normal_form name
        /\ fst (predict json_loads py_repr req api) =
             backoff (build_prompt name) k ++ [ApiCall k (build_prompt name)])
  /\ (0 <= slept (fst (predict json_loads py_repr req api)) <= 3)%Z.
Proof.
  destruct (predict_cases req api)
    as [[-> _] | [[-> _] | [[-> _] | (m & s & _ & _ & Hn & ->)]]];
    try (split; [now left | cbn; lia]).
  destruct (retry_loop json_loads py_repr api _ _ _) as [evs out] eqn:E.
  destruct (retry_loop_trace _ _ _ _ _ E) as (k & Hk & ->).
  assert (Hfst : fst (after_loop (normalize_name s)
                        (backoff (build_prompt (normalize_name s)) k
                           ++ [ApiCall k (build_prompt (normalize_name s))], out)) =
                 backoff (build_prompt (normalize_name s)) k
                   ++ [ApiCall k (build_prompt (normalize_name s))])
    by now destruct out as [[st|r]|e].
  rewrite Hfst. split.
  - right. exists (normalize_name s), k.
    split; [exact Hk|]. split; [exact Hn|]. split; [apply normal_form_normalize | reflexivity].
  - rewrite (slept_backoff _ _ Hk). unfold max_retries in Hk.
    destruct k as [|[|[|k]]]; cbn; lia.
Qed.

(** X11 — the completion API is called exactly for the requests whose body
    is a JSON object with a string [name] that is not empty once
    normalized, that is, a name with at least one code point that is not
    whitespace. *)
Theorem api_called_iff (req : request_body) (api : nat -> api_outcome) :
  fst (predict json_loads py_repr req api) <> [] <->
  exists (m : gmap str pyval) (s : str),
    req = Json (PyDict m) /\ m !! lit "name" = Some (PyStr s)
    /\ ~ Forall (fun c => isspace c = true) s.
Proof.
  split.
  - intros H.
    destruct (predict_cases req api)
      as [[E _] | [[E _] | [[E _] | (m & s & Hreq & Hm & Hn & _)]]];
      try (rewrite E in H; now destruct H).
    exists m, s. split; [exact Hreq|]. split; [exact Hm|].
    intros Hall. apply Hn. apply words_nil_iff in Hall.
    rewrite normalize_name_spec. unfold spec_normalized. now rewrite Hall.
  - intros (m & s & -> & Hm & Hs).
    assert (Hn : normalize_name s <> []).
    { intros Hn. apply Hs. apply words_nil_iff.
      rewrite normalize_name_spec in Hn. unfold spec_normalized in Hn.
      eapply join_nil_iff; [apply words_all_nonempty | exact Hn]. }
    rewrite (predict_after_loop _ _ _ Hm Hn).
    apply (loop_status api (build_prompt (normalize_name s)) (normalize_name s)).
Qed.

(** X12 — the endpoint answers 400 exactly in two situations: the parsed
    body is false in Python ([null], [false], [0], [0.0], the empty
    string, array or object), or it is a non-empty object whose [name] is
    absent or is a string of whitespace only. *)
Theorem status_400_iff (req : request_body) (api : nat -> api_outcome) :
  (exists r : response,
      snd (predict json_loads py_repr req api) = Ok r /\ status r = 400%Z) <->
  (exists data, req = Json data /\ truthy data = false)
  \/ (exists m : gmap str pyval,
        req = Json (PyDict m) /\ m <> ∅
        /\ (m !! lit "name" = None
            \/ exists s, m !! lit "name" = Some (PyStr s)
                          /\ Forall (fun c => isspace c = true) s)).
Proof.
  assert (Hblank : forall s, normalize_name s = [] <-> Forall (fun c => isspace c = true) s).
  { intros s. rewrite <- words_nil_iff, normalize_name_spec. unfold spec_normalized. split.
    - apply join_nil_iff, words_all_nonempty.
    - now intros ->. }
  split.
  - intros (r & Hr & H).
    destruct (predict_cases req api)
      as [[E _] | [[_ Hd] | [[_ (m & Hreq & Hm & Hn)] | (m & s & _ & _ & _ & E)]]].
    + rewrite E in Hr. injection Hr as <-. discriminate H.
    + now left.
    + right. exists m. split; [exact Hreq|]. split; [exact Hm|].
      destruct Hn as [Hn | (s & Hs & Hn)]; [now left|].
      right. exists s. split; [exact Hs | now apply Hblank].
    + rewrite E in Hr.
      pose proof (loop_status api (build_prompt (normalize_name s)) (normalize_name s))
        as [_ Hst].
      cbv zeta in Hst. destruct (Hst r Hr) as [Hs | Hs]; rewrite Hs in H; discriminate H.
  - intros [(data & -> & Hd) | (m & -> & Hm & Hn)].
    + eexists. unfold predict, predict_try. cbn [get_json]. rewrite Hd.
      split; reflexivity.
    + destruct Hn as [Hn | (s & Hs & Hn)]; eexists; unfold predict.
      * rewrite predict_try_unnamed by assumption. split; reflexivity.
      * rewrite (predict_try_named _ _ _ _ _ Hs). cbv zeta.
        apply Hblank in Hn. rewrite Hn. split; reflexivity.
Qed.

(** X13 — a body that parses to something other than an object never
    reaches the name check: a false value gets the 400 with "Invalid JSON
    payload", any other one (a non-empty array or string, a non-zero
    number, [true]) makes [data.get] raise and gets the generic 500. No
    completion call is made. *)
Theorem non_object_body (data : pyval) (api : nat -> api_outcome) :
  (forall m : gmap str pyval, data <> PyDict m) ->
  predict json_loads py_repr (Json data) api =
    ([], Ok (if truthy data
             then Response (error_body (lit "An unexpected server error occurred")) 500
             else Response (error_body (lit "Invalid JSON payload")) 400)).
Proof.
  intros Hd. unfold predict, predict_try. cbn [get_json].
  destruct (truthy data) eqn:Ht; cbn [negb]; [|reflexivity].
  destruct data; try reflexivity. now destruct (Hd m).
Qed.

(** *** Attempts that fail inside the outer [try] *)

Lemma attempt_try_non_object (reply : str) (v : pyval) (st : locals) :
  json_loads (extract_json_from_response (strip reply)) = Ok v ->
  (forall m : gmap str pyval, v <> PyDict m) ->
  attempt_try json_loads py_repr (ApiReturns (PyStr reply)) st = Raise (no_attribute v "get").
Proof.
  intros Hj Hv. unfold attempt_try. cbn [py_strip bind]. unfold parse_reply. rewrite Hj.
  destruct v; try reflexivity. now destruct (Hv m).
Qed.

Lemma attempt_try_no_content (content : pyval) (st : locals) :
  (forall s : str, content <> PyStr s) ->
  attempt_try json_loads py_repr (ApiReturns content) st = Raise (no_attribute content "strip").
Proof.
  intros Hc. unfold attempt_try. destruct content; try reflexivity. now destruct (Hc s).
Qed.

(** X14 — a reply that is valid JSON but not an object (an array, a
    string, a number, [null]) is not a validation failure: [result.get]
    raises inside the outer [try], so the attempt counts as an API failure
    and is retried with backoff. Three such replies give two sleeps and a
    500 whose message is the API-error prefix followed by Python's
    attribute error for the type of the last value. *)
Theorem non_object_reply_is_retried (m : gmap str pyval) (s : str)
    (api : nat -> api_outcome) (r0 r1 r2 : str) (v0 v1 v2 : pyval) :
  m !! lit "name" = Some (PyStr s) ->
  normalize_name s <> [] ->
  api 0%nat = ApiReturns (PyStr r0) -> api 1%nat = ApiReturns (PyStr r1) ->
  api 2%nat = ApiReturns (PyStr r2) ->
  json_loads (extract_json_from_response (strip r0)) = Ok v0 ->
  json_loads (extract_json_from_response (strip r1)) = Ok v1 ->
  json_loads (extract_json_from_response (strip r2)) = Ok v2 ->
  (forall o : gmap str pyval, v0 <> PyDict o) ->
  (forall o : gmap str pyval, v1 <> PyDict o) ->
  (forall o : gmap str pyval, v2 <> PyDict o) ->
  let prompt := build_prompt (normalize_name s) in
  predict json_loads py_repr (Json (PyDict m)) api =
    ([ApiCall 0 prompt; Sleep 1; ApiCall 1 prompt; Sleep 2; ApiCall 2 prompt],
     Ok (Response
           (error_body (lit "OpenAI API error: " ++ lit "'" ++ type_name v2
                        ++ lit "' object has no attribute 'get'")) 500)).
Proof.
  intros Hm Hn A0 A1 A2 J0 J1 J2 D0 D1 D2 prompt.
  rewrite (predict_all_fail json_loads py_repr m s api (no_attribute v0 "get")
             (no_attribute v1 "get") (no_attribute v2 "get") Hm Hn eq_refl eq_refl eq_refl).
  - reflexivity.
  - intros st. rewrite A0. now apply attempt_try_non_object.
  - intros st. rewrite A1. now apply attempt_try_non_object.
  - intros st. rewrite A2. now apply attempt_try_non_object.
Qed.

(** X15 — a response whose [content] is not a string ([None], as the API
    returns for a refusal or a filtered answer) makes [.strip()] raise
    inside the outer [try]: it is retried like an API failure, and three
    of them give two sleeps and a 500 that reports the attribute error. *)
Theorem missing_content_is_retried (m : gmap str pyval) (s : str)
    (api : nat -> api_outcome) (c0 c1 c2 : pyval) :
  m !! lit "name" = Some (PyStr s) ->
  normalize_name s <> [] ->
  api 0%nat = ApiReturns c0 -> api 1%nat = ApiReturns c1 -> api 2%nat = ApiReturns c2 ->
  (forall t : str, c0 <> PyStr t) ->
  (forall t : str, c1 <> PyStr t) ->
  (forall t : str, c2 <> PyStr t) ->
  let prompt := build_prompt (normalize_name s) in
  predict json_loads py_repr (Json (PyDict m)) api =
    ([ApiCall 0 prompt; Sleep 1; ApiCall 1 prompt; Sleep 2; ApiCall 2 prompt],
     Ok (Response
           (error_body (lit "OpenAI API error: " ++ lit "'" ++ type_name c2
                        ++ lit "' object has no attribute 'strip'")) 500)).
Proof.
  intros Hm Hn A0 A1 A2 D0 D1 D2 prompt.
  rewrite (predict_all_fail json_loads py_repr m s api (no_attribute c0 "strip")
             (no_attribute c1 "strip") (no_attribute c2 "strip") Hm Hn
             eq_refl eq_refl eq_refl).
  - reflexivity.
  - intros st. rewrite A0. now apply attempt_try_no_content.
  - intros st. rewrite A1. now apply attempt_try_no_content.
  - intros st. rewrite A2. now apply attempt_try_no_content.
Qed.

End Endpoint.

Lemma non_object_body_witness :
  predict Demo.loads Demo.repr (Json (PyList [PyInt 1])) Demo.down =
    ([], Ok (Response (error_body (lit "An unexpected server error occurred")) 500))
  /\ predict Demo.loads Demo.repr (Json (PyList [])) Demo.down =
       ([], Ok (Response (error_body (lit "Invalid JSON payload")) 400))
  /\ predict Demo.loads Demo.repr (Json (PyInt 0)) Demo.down =
       ([], Ok (Response (error_body (lit "Invalid JSON payload")) 400)).
Proof.
  split; [|split].
  - apply (non_object_body Demo.loads Demo.repr (PyList [PyInt 1])). discriminate.
  - apply (non_object_body Demo.loads Demo.repr (PyList [])). discriminate.
  - apply (non_object_body Demo.loads Demo.repr (PyInt 0)). discriminate.
Defined.

Lemma non_object_reply_is_retried_witness :
  let prompt := build_prompt (normalize_name (lit "  John   Doe ")) in
  predict loads_with_array Demo.repr (Json (PyDict Demo.john)) (Demo.up array_json) =
    ([ApiCall 0 prompt; Sleep 1; ApiCall 1 prompt; Sleep 2; ApiCall 2 prompt],
     Ok (Response
           (error_body (lit "OpenAI API error: " ++ lit "'" ++ lit "list"
                        ++ lit "' object has no attribute 'get'")) 500)).
Proof.
  assert (Hname : normalize_name (lit "  John   Doe ") <> []) by (vm_compute; discriminate).
  apply (non_object_reply_is_retried loads_with_array Demo.repr Demo.john
           (lit "  John   Doe ") (Demo.up array_json) array_json array_json array_json
           (PyList [PyInt 1]) (PyList [PyInt 1]) (PyList [PyInt 1]));
    try reflexivity; try exact Hname; discriminate.
Defined.

Lemma missing_content_is_retried_witness :
  let prompt := build_prompt (normalize_name (lit "  John   Doe ")) in
  predict Demo.loads Demo.repr (Json (PyDict Demo.john)) silent =
    ([ApiCall 0 prompt; Sleep 1; ApiCall 1 prompt; Sleep 2; ApiCall 2 prompt],
     Ok (Response
           (error_body (lit "OpenAI API error: " ++ lit "'" ++ lit "NoneType"
                        ++ lit "' object has no attribute 'strip'")) 500)).
Proof.
  assert (Hname : normalize_name (lit "  John   Doe ") <> []) by (vm_compute; discriminate).
  apply (missing_content_is_retried Demo.loads Demo.repr Demo.john
           (lit "  John   Doe ") silent PyNone PyNone PyNone);
    try reflexivity; try exact Hname; discriminate.
Defined.

Section Outcomes.
Variable json_loads : str -> res pyval.
Variable py_repr : pyval -> str.

(** X16 — the first attempt that yields a recognised prediction ends the
    loop: after [k] raising calls (each followed by its backoff) and a
    valid reply on attempt [k], no further call or sleep is made and the
    answer is 200 with the normalized name and that prediction. With
    [k = 0] the successful request costs one call and no sleep. *)
Theorem success_stops_retrying (m : gmap str pyval) (s : str)
    (api : nat -> api_outcome) (k : nat) (reply : str) (o : gmap str pyval) (p : str) :
  m !! lit "name" = Some (PyStr s) ->
  normalize_name s <> [] ->
  (k < max_retries)%nat ->
  (forall j, (j < k)%nat -> exists msg, api j = ApiRaises msg) ->
  api k = ApiReturns (PyStr reply) ->
  json_loads (extract_json_from_response (strip reply)) = Ok (PyDict o) ->
  o !! lit "prediction" = Some (PyStr p) ->
  p = lit "Realistic" \/ p = lit "Not Realistic" ->
  let prompt := build_prompt (normalize_name s) in
  exists b : gmap str str,
    predict json_loads py_repr (Json (PyDict m)) api =
      (backoff prompt k ++ [ApiCall k prompt], Ok (Response b 200))
    /\ b !! lit "name" = Some (normalize_name s)
    /\ b !! lit "prediction" = Some p.
Proof.
  intros Hm Hname Hk Hfail Hk' Hj Ho Hp prompt.
  assert (Hv : valid_prediction (PyStr p) = true) by (destruct Hp as [-> | ->]; reflexivity).
  destruct (parse_reply_valid json_loads py_repr _ _ _ Hj Ho Hv) as [reason Hr].
  rewrite (predict_break json_loads py_repr m s api k (Locals (PyStr p) None reason)
             Hm Hname Hk (raising_attempts_retried json_loads py_repr api k Hfail)
             (fun err => attempt_body_valid json_loads py_repr api _ k _ reply _ _ Hk' Hr)).
  destruct Hp as [-> | ->].
  - rewrite final_response_realistic by reflexivity. eexists. split; [reflexivity|].
    split; [apply lookup_insert_eq|].
    rewrite lookup_insert_ne by discriminate. apply lookup_insert_eq.
  - rewrite final_response_not_realistic by reflexivity. eexists. split; [reflexivity|].
    split; [apply lookup_insert_eq|].
    rewrite lookup_insert_ne by discriminate. apply lookup_singleton_eq.
Qed.

End Outcomes.

Lemma success_stops_retrying_witness :
  let prompt := build_prompt (normalize_name (lit "  John   Doe ")) in
  exists b : gmap str str,
    predict Demo.loads Demo.repr (Json (PyDict Demo.john)) (Demo.up Demo.not_realistic_json) =
      ([ApiCall 0 prompt], Ok (Response b 200))
    /\ b !! lit "name" = Some (normalize_name (lit "  John   Doe "))
    /\ b !! lit "prediction" = Some (lit "Not Realistic").
Proof.
  assert (Hname : normalize_name (lit "  John   Doe ") <> []) by (vm_compute; discriminate).
  refine (success_stops_retrying Demo.loads Demo.repr Demo.john (lit "  John   Doe ")
            (Demo.up Demo.not_realistic_json) 0 Demo.not_realistic_json
            {[ lit "prediction" := PyStr (lit "Not Realistic");
               lit "reason" := PyStr (lit "too short") ]}
            (lit "Not Realistic") eq_refl Hname _ _ eq_refl eq_refl eq_refl _).
  - unfold max_retries. lia.
  - intros j Hj. lia.
  - right. reflexivity.
Defined.

Section Catalogue.
Variable json_loads : str -> res pyval.
Variable py_repr : pyval -> str.










End Catalogue.





(** ** Wrapping and unwrapping a fenced reply *)

Lemma match_here_starts_with_backtick s g :
  Re.match_here s = Some g -> exists s', s = 96%N :: s'.
Proof.
  intros H. destruct (match_here_inv _ _ H) as (f & ws1 & inner & ws2 & post & -> & _ & Hf & _).
  destruct (opens_fence_head _ Hf) as [f' ->]. simpl. eauto.
Qed.

Lemma closing_after_plain_inner (inner inner0 ws2 ws20 post post0 : str) :
  ~ In 96%N inner -> Re.all_space ws20 ->
  inner ++ Re.rbrace :: ws2 ++ Re.close_fence ++ post =
    inner0 ++ Re.rbrace :: ws20 ++ Re.close_fence ++ post0 ->
  (length inner0 <= length inner)%nat -> inner0 = inner.
Proof.
  intros Hplain Hws E Hle.
  destruct (Nat.eq_dec (length inner0) (length inner)) as [Heq|Hne].
  { symmetry in E. now apply app_inj_1 in E. }
  exfalso. symmetry in E.
  destruct (app_split_longer _ _ _ _ E ltac:(lia)) as (b2 & -> & Hb2 & E2).
  destruct b2 as [|c b2]; [congruence|]. injection E2 as Hc E2. subst c.
  assert (Hb : ~ In 96%N b2).
  { intros Hin. apply Hplain. apply in_or_app. right. now right. }
  clear E Hle Hne Hb2 Hplain.
  revert b2 E2 Hb. induction Hws as [|d ws20 Hd _ IH]; intros b2 E2 Hb.
  - destruct b2 as [|x b2]; [discriminate E2|].
    injection E2 as Hx _. apply Hb. left. now symmetry.
  - destruct b2 as [|x b2].
    + injection E2 as Hd' _. subst d. discriminate Hd.
    + injection E2 as _ E2. apply (IH b2 E2). intros Hin. apply Hb. now right.
Qed.

(** X20 — unwrapping undoes wrapping: for a braced text whose inside has
    no backtick, put in a [```json] fence (marker in any case, optional
    whitespace around the braces) and surrounded by any text, provided the
    text in front has no backtick, the extraction returns exactly the
    braced text. *)
Theorem extract_json_unwraps_fence (pre f ws1 inner ws2 post : str) :
  ~ In 96%N pre -> ~ In 96%N inner ->
  Re.opens_fence f -> Re.all_space ws1 -> Re.all_space ws2 ->
  extract_json_from_response
    (pre ++ (f ++ ws1 ++ (Re.lbrace :: inner ++ [Re.rbrace]) ++ ws2 ++ Re.close_fence) ++ post)
  = Re.lbrace :: inner ++ [Re.rbrace].
Proof.
  intros Hpre Hinner Hf Hws1 Hws2.
  set (blk := f ++ ws1 ++ (Re.lbrace :: inner ++ [Re.rbrace]) ++ ws2 ++ Re.close_fence).
  assert (Hblk : Re.fenced_block blk (Re.lbrace :: inner ++ [Re.rbrace])).
  { exists f, ws1, inner, ws2. repeat split; assumption. }
  assert (Hc : Re.contains_fenced_block (pre ++ blk ++ post) (Re.lbrace :: inner ++ [Re.rbrace]))
    by (exists pre, blk, post; auto).
  destruct (search_complete _ _ Hc) as [g Hg].
  rewrite (extract_fenced _ _ Hg).
  destruct (search_leftmost _ _ Hg) as (pre0 & rest & Hsplit & Hm & Hmin).
  assert (Hlen : length pre0 = length pre).
  { destruct (Nat.lt_trichotomy (length pre0) (length pre)) as [Hlt | [Heq | Hgt]];
      [exfalso | exact Heq | exfalso].
    - symmetry in Hsplit.
      destruct (app_split_longer _ _ _ _ Hsplit Hlt) as (c & Hp & Hc' & Hrest).
      destruct (match_here_starts_with_backtick _ _ Hm) as [s' Hs'].
      rewrite Hrest in Hs'. destruct c as [|x c]; [congruence|].
      injection Hs' as -> _. apply Hpre. rewrite Hp. apply in_or_app. right. now left.
    - destruct (app_split_longer _ _ _ _ Hsplit Hgt) as (p2 & Hp & Hp2 & Hbp).
      specialize (Hmin pre p2 Hp Hp2).
      destruct (match_here_complete blk post _ Hblk) as [x Hx].
      rewrite Hbp in Hx. congruence. }
  apply app_inj_1 in Hsplit; [|now symmetry]. destruct Hsplit as [_ Hrest].
  destruct (match_here_inv _ _ Hm)
    as (f0 & ws10 & inner0 & ws20 & post0 & E & -> & Hf0 & Hws10 & Hws20 & Hshort).
  rewrite <- Hrest in E. unfold blk in E. rewrite <- !app_assoc in E.
  apply app_inj_1 in E; [|now rewrite (opens_fence_length _ Hf), (opens_fence_length _ Hf0)].
  destruct E as [_ E]. simpl in E.
  apply all_space_span in E; try assumption; try reflexivity.
  destruct E as (_ & _ & E). rewrite <- !app_assoc in E. simpl in E.
  assert (Hle : (length inner0 <= length inner)%nat) by (eapply Hshort; [symmetry; exact E | exact Hws2]).
  now rewrite (closing_after_plain_inner inner inner0 ws2 ws20 post post0 Hinner Hws20 E Hle).
Qed.

Lemma extract_json_unwraps_fence_witness :
  extract_json_from_response
    (lit "Sure: " ++ (lit "```JSON" ++ [10%N]
                      ++ (Re.lbrace :: Demo.member "prediction" "Realistic" ++ [Re.rbrace])
                      ++ [10%N] ++ Re.close_fence) ++ lit " Hope this helps.")
  = Re.lbrace :: Demo.member "prediction" "Realistic" ++ [Re.rbrace].
Proof.
  apply extract_json_unwraps_fence.
  - intros H. vm_compute in H. repeat (destruct H as [H|H]; [discriminate H|]). exact H.
  - intros H. vm_compute in H. repeat (destruct H as [H|H]; [discriminate H|]). exact H.
  - repeat constructor.
  - repeat constructor.
  - repeat constructor.
Defined.
